(** * Monday: a shallow embedding of the lifecycle root, the configuration
    helpers, the proxy allocation, the runner's environment composition and
    the vendored REST retry helper.

    Layout: the embedded program first, one module per Go package, each
    with the sample data its properties are tried on; then the properties,
    one section per package. *)

From Stdlib Require Import ZArith Ascii DecimalString DecimalN.
From stdpp Require Import gmap strings list fin_maps.

Local Open Scope string_scope.

(* ===================================================================== *)
(** * Package [config] (src/unnamed/part_000)                             *)
(* ===================================================================== *)

Module Config.

Definition ExecutableGo : string := "go".

Definition ForwarderKubernetes       : string := "kubernetes".
Definition ForwarderKubernetesRemote : string := "kubernetes-remote".
Definition ForwarderSSH              : string := "ssh".


(** [ProxifiedForwarders] lists all forwarders that will use the proxy. *)
Definition ProxifiedForwarders : gmap string bool :=
  <[ForwarderKubernetes := true]>
    (<[ForwarderKubernetesRemote := true]>
       (<[ForwarderSSH := true]> ∅)).

(** The [Application] struct.  [EnvFile] is not declared in part_000; it is
    the field pkg/run/env_test.go sets on the same struct, and only the
    runner reads it. *)
Record Application : Type := {
  Name       : string;
  Path       : string;
  Executable : string;
  Hostname   : string;
  Watch      : bool;
  Env        : gmap string string;
  Args       : list string;
  EnvFile    : string
}.

Record ForwardValues : Type := {
  Context   : string;
  Namespace : string;
  Labels    : gmap string string;
  FHostname : string;
  Ports     : list string;
  Remote    : string;
  FArgs     : list string
}.

(** The [Forward] struct; the Go field [Type] is spelt [Type_] here. *)
Record Forward : Type := {
  ForwardName : string;
  Type_       : string;
  Values      : ForwardValues
}.

(** What [os.Stat] reports for a path, as far as [os.IsNotExist] can tell:
    the file is there, it is not there, or the call failed otherwise. *)
Inductive StatResult : Type :=
| StatOk
| StatNotExist
| StatOtherError.

Definition IsNotExist (r : StatResult) : bool :=
  match r with
  | StatNotExist => true
  | _ => false
  end.

(** The part of the operating system [GetPath] reads. *)
Record OS : Type := {
  Stat   : string -> StatResult;
  Getenv : string -> string
}.

(** [fmt.Sprintf("%s/src/%s", gopath, path)]. *)
Definition SprintfSrc (gopath path : string) : string :=
  gopath +:+ "/src/" +:+ path.

(** [GetPath] returns the path depending on overridden value or not. *)
Definition GetPath (os : OS) (a : Application) : string :=
  let path := Path a in
  if decide (Executable a = ExecutableGo) then
    (* First try to use the given directory, else, add the Go's $GOPATH *)
    if IsNotExist (Stat os path)
    then SprintfSrc (Getenv os "GOPATH") (Path a)
    else path
  else path.

(** [IsProxified] indicates if the forward rule will use the proxy:
    [if value, ok := ProxifiedForwarders[f.Type]; ok && value]. *)
Definition IsProxified (f : Forward) : bool :=
  match ProxifiedForwarders !! Type_ f with
  | Some value => value
  | None => false
  end.

(** A machine whose GOPATH is /home/dev/go and on which only "/" exists. *)
Definition sampleOS : OS :=
  {| Stat := fun path => if decide (path = "/") then StatOk else StatNotExist;
     Getenv := fun name => if decide (name = "GOPATH") then "/home/dev/go" else "" |}.

Definition sampleApp (exe path : string) : Application :=
  {| Name := "api"; Path := path; Executable := exe; Hostname := ""; Watch := false;
     Env := ∅; Args := []; EnvFile := "" |}.

(** What is on a disk: the directories and the regular files, by absolute
    path. *)
Record Disk : Type := {
  directories : list string;
  files       : list string
}.

(** Whether a path names something that exists on the disk. *)
Definition onDisk (d : Disk) (path : string) : bool :=
  bool_decide (path ∈ (directories d ++ files d)%list).

(** [os.Stat] on such a disk. A path that exists is found. A path that does
    not exist is reported with ENOENT, the error [os.IsNotExist] accepts,
    unless the lookup already fails at a component that is a regular file:
    then the error is ENOTDIR, which [os.IsNotExist] does not accept. *)
Definition statOn (d : Disk) (path : string) : StatResult :=
  if onDisk d path then StatOk
  else if existsb (fun f => String.prefix (f +:+ "/") path) (files d)
       then StatOtherError
       else StatNotExist.

Definition diskOS (d : Disk) : OS :=
  {| Stat := statOn d;
     Getenv := fun name => if decide (name = "GOPATH") then "/home/dev/go" else "" |}.

(** A disk with the regular file /etc/passwd. *)
Definition sampleDisk : Disk :=
  {| directories := ["/"; "/etc"]; files := ["/etc/passwd"] |}.

End Config.

(* ===================================================================== *)
(** * Package [main]: the lifecycle root (src/unnamed/part_001) and the
      [edit] command (the same file, from line 178)                       *)
(* ===================================================================== *)

Module Main.

(** What the program writes to standard output. *)
Inductive message : Type :=
| MsgConfigError        (* "❌  %v\n" with the error of config.Load *)
| MsgExecuteError       (* "❌  An error has occured during 'edit' command: %v\n" *)
| MsgPromptBye          (* "\n👋  Bye" *)
| MsgNewline            (* "\n" *)
| MsgMainLoopError      (* the error MainLoop returned *)
| MsgStopAllBye         (* "\n👋  Bye, closing your local applications and remote connections now" *)
| MsgEditConfigMissing  (* "❌  %v\n" with the error of CheckConfigFileExists *)
| MsgEditorFailed.      (* "❌  Cannot run the '%s' command to edit config file: %v\n" *)

(** The observable steps of one execution, in program order.  The four
    Stop events are the calls [watcher.Stop()], [forwarder.Stop()],
    [proxyfier.Stop()] and [runner.Stop()]; each is taken to return. *)
Inductive event : Type :=
| InitRuntimeEnvironment
| Print (m : message)
| LayoutInit
| GoWatcherWatch        (* go watcher.Watch() *)
| StatusWritef
| GuiClose
| SignalReceived        (* <-stop delivered a signal *)
| EditorStart
| WatcherStop
| ForwarderStop
| ProxyStop
| RunnerStop.

#[global] Instance message_eq_dec : EqDecision message.
Proof. solve_decision. Defined.

#[global] Instance event_eq_dec : EqDecision event.
Proof. solve_decision. Defined.

(** How an execution ends: [os.Exit code], an unrecovered panic, or never
    (blocked on a channel or in the UI loop for ever). *)
Inductive outcome : Type :=
| Exited (code : Z)
| Panicked
| Blocked.

(** A command of the program: it extends the trace and either yields a
    value or ends the process. *)
Definition Proc (A : Type) : Type :=
  list event -> list event * (outcome + A).

#[global] Instance Proc_ret : MRet Proc := fun A a tr => (tr, inr a).

#[global] Instance Proc_bind : MBind Proc := fun A B f m tr =>
  match m tr with
  | (tr', inl o) => (tr', inl o)
  | (tr', inr a) => f a tr'
  end.

Definition emit (e : event) : Proc unit := fun tr => ((tr ++ [e])%list, inr tt).

Definition osExit {A} (code : Z) : Proc A := fun tr => (tr, inl (Exited code)).

Definition panic {A} : Proc A := fun tr => (tr, inl Panicked).

Definition block {A} : Proc A := fun tr => (tr, inl Blocked).

(** [defer d] around a body: [d] runs when the body returns or panics, not
    when it calls [os.Exit] and not while it is blocked. *)
Definition withDefer {A} (d : Proc unit) (body : Proc A) : Proc A := fun tr =>
  match body tr with
  | (tr', inr a) =>
      match d tr' with
      | (tr'', inr _) => (tr'', inr a)
      | (tr'', inl o) => (tr'', inl o)
      end
  | (tr', inl Panicked) => (fst (d tr'), inl Panicked)
  | (tr', inl o) => (tr', inl o)
  end.

(** What [rootCmd.Execute] does with the command line.  The Run functions
    of the other subcommands are not among the sources. *)
Inductive Dispatch : Type :=
| DispatchError                       (* Execute returns an error *)
| DispatchRoot                        (* the root command's Run *)
| DispatchEdit.                       (* editCmd's Run *)

Inductive PromptResult : Type :=
| PromptChoice                        (* a project was chosen *)
| PromptCtrlC                         (* err.Error() == "^C" *)
| PromptError.                        (* any other error *)

Inductive MainLoopResult : Type :=
| LoopCtrlC                           (* the Ctrl-C key binding runs [quit] *)
| LoopError                           (* returns an error other than ErrQuit *)
| LoopReturns                         (* returns nil or ErrQuit *)
| LoopForever.                        (* never returns *)

(** Everything outside the program that one execution depends on. *)
Record World : Type := {
  dispatch          : Dispatch;
  envUI             : bool;   (* len(os.Getenv("MONDAY_ENABLE_UI")) > 0 *)
  flagUI            : bool;   (* strconv.ParseBool(cmd.Flag("ui").Value.String()) *)
  configLoad        : bool;   (* config.Load() returned no error *)
  prompt            : PromptResult;
  projectByName     : bool;   (* conf.GetProjectByName returned no error *)
  hostfileNewClient : bool;   (* hostfile.NewClient returned no error *)
  setKeybinding     : bool;   (* SetKeybinding returned no error *)
  mainLoop          : MainLoopResult;
  signal            : bool;   (* a signal reaches the channel of handleExitSignal *)
  configFileExists  : bool;   (* config.CheckConfigFileExists returned no error *)
  editorStarts      : bool    (* editorCommand.Start returned no error *)
}.

Section Program.

Variable w : World.

Definition stopAll : Proc unit :=
  emit (Print MsgStopAllBye) ;;
  emit WatcherStop ;;
  emit ForwarderStop ;;
  emit ProxyStop ;;
  emit RunnerStop ;;
  osExit 0.

Definition quit : Proc unit :=
  emit GuiClose ;;
  stopAll.

(** Handle for an exit signal in order to quit the application properly. *)
Definition handleExitSignal : Proc unit :=
  (if signal w then emit SignalReceived else block) ;;
  stopAll.

Definition selectProject : Proc unit :=
  match prompt w with
  | PromptChoice => emit (Print MsgNewline)
  | PromptCtrlC => emit (Print MsgPromptBye) ;; osExit 0
  | PromptError => panic
  end.

Definition runProject (uiEnabled : bool) : Proc unit :=
  emit LayoutInit ;;
  (if projectByName w then mret tt else panic) ;;
  (if hostfileNewClient w then mret tt else panic) ;;
  emit GoWatcherWatch ;;
  if uiEnabled then
    withDefer (emit GuiClose)
      ((if setKeybinding w then mret tt else panic) ;;
       emit StatusWritef ;;
       match mainLoop w with
       | LoopCtrlC => quit
       | LoopError => emit (Print MsgMainLoopError) ;; stopAll
       | LoopReturns => mret tt
       | LoopForever => block
       end)
  else mret tt.

(** The [Run] function of the root command. *)
Definition rootRun : Proc unit :=
  let uiEnabled := if envUI w then true else flagUI w in
  if configLoad w then
    selectProject ;;
    runProject uiEnabled ;;
    handleExitSignal
  else
    emit (Print MsgConfigError).

(** The [Run] function of [editCmd]. *)
Definition editRun : Proc unit :=
  if configFileExists w then
    if editorStarts w then emit EditorStart
    else emit (Print MsgEditorFailed)
  else emit (Print MsgEditConfigMissing).

Definition main : Proc unit :=
  emit InitRuntimeEnvironment ;;
  match dispatch w with
  | DispatchError => emit (Print MsgExecuteError) ;; osExit 1
  | DispatchRoot => rootRun
  | DispatchEdit => editRun
  end.

End Program.

(** One whole execution: the trace, and how the process ended.  [main]
    returning ends the process with status 0. *)
Definition execute (w : World) : list event * outcome :=
  match main w [] with
  | (tr, inl o) => (tr, o)
  | (tr, inr _) => (tr, Exited 0)
  end.

Definition traceOf (w : World) : list event := fst (execute w).

(** The status the operating system sees; an unrecovered Go panic ends the
    process with status 2, a blocked process has none. *)
Definition exitStatus (w : World) : option Z :=
  match snd (execute w) with
  | Exited code => Some code
  | Panicked => Some 2%Z
  | Blocked => None
  end.

(** Position of the first occurrence of an event. *)
Fixpoint indexOf (e : event) (tr : list event) : option nat :=
  match tr with
  | [] => None
  | x :: tr' => if decide (x = e) then Some 0%nat else S <$> indexOf e tr'
  end.

(** [a] and [b] both occur, [a] first. *)
Definition before (a b : event) (tr : list event) : bool :=
  match indexOf a tr, indexOf b tr with
  | Some i, Some j => bool_decide (i < j)%nat
  | _, _ => false
  end.

Definition isStop (e : event) : bool :=
  match e with
  | WatcherStop | ForwarderStop | ProxyStop | RunnerStop => true
  | _ => false
  end.

(** The Stop calls of a trace, in order. *)
Definition stops (tr : list event) : list event :=
  filter (fun e => isStop e = true) tr.

(** A shutdown run: an execution in which [stopAll] is entered. *)
Definition shutdownRun (w : World) : bool :=
  bool_decide (Print MsgStopAllBye ∈ traceOf w).

(** An execution that receives the interrupt it waits for. *)
Definition interrupted (w : World) : bool :=
  bool_decide (SignalReceived ∈ traceOf w).

(** An execution in which [config.Load] is called and returns an error. *)
Definition configLoadFails (w : World) : bool :=
  match dispatch w with
  | DispatchRoot => negb (configLoad w)
  | _ => false
  end.

(** A project is run without the UI and an interrupt arrives. *)
Definition interruptWorld : World :=
  {| dispatch := DispatchRoot; envUI := false; flagUI := false; configLoad := true;
     prompt := PromptChoice; projectByName := true; hostfileNewClient := true;
     setKeybinding := true; mainLoop := LoopReturns; signal := true;
     configFileExists := true; editorStarts := true |}.

(** The same command line, but [config.Load] fails. *)
Definition configErrorWorld : World :=
  {| dispatch := DispatchRoot; envUI := false; flagUI := false; configLoad := false;
     prompt := PromptChoice; projectByName := true; hostfileNewClient := true;
     setKeybinding := true; mainLoop := LoopReturns; signal := true;
     configFileExists := true; editorStarts := true |}.

(** The UI is on and the user quits with Ctrl-C. *)
Definition uiQuitWorld : World :=
  {| dispatch := DispatchRoot; envUI := true; flagUI := false; configLoad := true;
     prompt := PromptChoice; projectByName := true; hostfileNewClient := true;
     setKeybinding := true; mainLoop := LoopCtrlC; signal := false;
     configFileExists := true; editorStarts := true |}.

(** Cobra rejects the command line. *)
Definition badCommandWorld : World :=
  {| dispatch := DispatchError; envUI := false; flagUI := false; configLoad := true;
     prompt := PromptChoice; projectByName := true; hostfileNewClient := true;
     setKeybinding := true; mainLoop := LoopReturns; signal := false;
     configFileExists := true; editorStarts := true |}.

(** The same world with another value of the [--ui] flag. *)
Definition withFlagUI (b : bool) (w : World) : World :=
  {| dispatch := dispatch w; envUI := envUI w; flagUI := b; configLoad := configLoad w;
     prompt := prompt w; projectByName := projectByName w;
     hostfileNewClient := hostfileNewClient w; setKeybinding := setKeybinding w;
     mainLoop := mainLoop w; signal := signal w;
     configFileExists := configFileExists w; editorStarts := editorStarts w |}.

(** Whether, and how often, an event occurs in a trace. *)
Definition occurs (e : event) (tr : list event) : bool := bool_decide (e ∈ tr).

Definition occurrences (e : event) (tr : list event) : nat :=
  length (filter (fun x => x = e) tr).

(** The steps of [stopAll] before its [os.Exit(0)]. *)
Definition stopAllSteps : list event :=
  [Print MsgStopAllBye; WatcherStop; ForwarderStop; ProxyStop; RunnerStop].

(** A trace cut before its last [n] events, and those events. *)
Definition butLast (n : nat) (tr : list event) : list event := take (length tr - n) tr.

Definition lastEvents (n : nat) (tr : list event) : list event := drop (length tr - n) tr.

(** The UI is on, everything is set up, but the key binding is refused. *)
Definition keybindingErrorWorld : World :=
  {| dispatch := DispatchRoot; envUI := false; flagUI := true; configLoad := true;
     prompt := PromptChoice; projectByName := true; hostfileNewClient := true;
     setKeybinding := false; mainLoop := LoopReturns; signal := true;
     configFileExists := true; editorStarts := true |}.

(** The UI is on and its main loop fails. *)
Definition mainLoopErrorWorld : World :=
  {| dispatch := DispatchRoot; envUI := true; flagUI := false; configLoad := true;
     prompt := PromptChoice; projectByName := true; hostfileNewClient := true;
     setKeybinding := true; mainLoop := LoopError; signal := false;
     configFileExists := true; editorStarts := true |}.

(** The hosts file cannot be opened. *)
Definition hostfileErrorWorld : World :=
  {| dispatch := DispatchRoot; envUI := false; flagUI := false; configLoad := true;
     prompt := PromptChoice; projectByName := true; hostfileNewClient := false;
     setKeybinding := true; mainLoop := LoopReturns; signal := true;
     configFileExists := true; editorStarts := true |}.

(** Walks the decisions an execution takes, one field of the world at a
    time, evaluating the program between them. *)
Ltac explore_world :=
  vm_compute;
  repeat match goal with
         | |- context [match ?x with _ => _ end] => is_var x; destruct x; vm_compute
         end.

End Main.

(* ===================================================================== *)
(** * Package [proxy]: allocation of loopback addresses and ports.
      Only pkg/proxy/proxy_test.go is among the sources.                  *)
(* ===================================================================== *)

Module Proxy.

(** [strconv.Itoa] and [strconv.Atoi] on the non-negative numbers the
    cursors hold; [Atoi] yields 0 where Go reports an error. *)
Definition Itoa (n : N) : string := NilEmpty.string_of_uint (N.to_uint n).

Definition Atoi (s : string) : N :=
  match NilEmpty.uint_of_string s with
  | Some d => N.of_uint d
  | None => 0%N
  end.

(** Modelled from the spec: the hostfile editor (pkg/hostfile is missing
    from the sources; the proxy tests replace it by a mock whose [AddHost]
    returns nil).  Spec 4.1: [AddHost(ip, hostname)] adds [ip hostname]
    inside the managed region and is idempotent on [(ip, hostname)] pairs.
    [calls] records every invocation, oldest first; [region] is the
    managed region, one pair per line. *)
Record Hostfile : Type := {
  calls  : list (string * string);
  region : list (string * string)
}.

(** Modelled from the spec: [hostfile.NewClient]; spec section 6: on
    startup any managed region left behind is removed before a fresh one
    is written. *)
Definition NewClient : Hostfile := {| calls := []; region := [] |}.

(** Modelled from the spec: [AddHost] (see [Hostfile]). *)
Definition AddHost (ip hostname : string) (h : Hostfile) : Hostfile :=
  {| calls := (calls h ++ [(ip, hostname)])%list;
     region := if decide ((ip, hostname) ∈ region h)
               then region h
               else (region h ++ [(ip, hostname)])%list |}.

(** Modelled from the spec: the [ProxyForward] record of spec section 3
    (name, target_hostname, proxy_ip, proxy_port, forward_port,
    local_port); ports and addresses are strings, as the tests pass them. *)
Record ProxyForward : Type := {
  Name           : string;
  TargetHostname : string;
  ProxyIP        : string;
  ProxyPort      : string;
  ForwardPort    : string;
  LocalPort      : string
}.

(** Modelled from the spec: [NewProxyForward(name, hostname, _, localPort,
    forwardPort)] as the tests call it.  The third argument is the empty
    string in every call and is named by neither the tests nor the spec;
    it is not stored.  Address and proxy port are unset until the forward
    is registered. *)
Definition NewProxyForward (name hostname third localPort forwardPort : string)
  : ProxyForward :=
  {| Name := name; TargetHostname := hostname; ProxyIP := ""; ProxyPort := "";
     ForwardPort := forwardPort; LocalPort := localPort |}.

(** Modelled from the spec: the [proxy] struct, with the three fields the
    tests read ([ProxyForwards], [latestPort], [ipLastByte]) and the
    hostfile editor it was built with.  Spec 4.2: a [name → ProxyForward]
    map and a monotonic port/ip cursor.  The view sink is left out: no
    property below observes it. *)
Record proxy : Type := {
  ProxyForwards : gmap string ProxyForward;
  latestPort    : string;
  ipLastByte    : N;
  hostfile      : Hostfile
}.

(** Modelled from the spec: [NewProxy(view, hostfile)]; TestNewProxy: no
    forward, [latestPort] "9400", [ipLastByte] 1. *)
Definition NewProxy (h : Hostfile) : proxy :=
  {| ProxyForwards := ∅; latestPort := "9400"; ipLastByte := 1%N; hostfile := h |}.

(** Modelled from the spec: the address the ip cursor stands for; spec
    section 3: [proxy_ip] starts at 127.1.2.1 and increments the last octet
    per new forward. *)
Definition proxyIP (lastByte : N) : string := "127.1.2." +:+ Itoa lastByte.

(** Modelled from the spec: the forward as registered, with the address and
    the port the cursors stand at. *)
Definition allocate (p : proxy) (pf : ProxyForward) : ProxyForward :=
  {| Name := Name pf; TargetHostname := TargetHostname pf;
     ProxyIP := proxyIP (ipLastByte p); ProxyPort := latestPort p;
     ForwardPort := ForwardPort pf; LocalPort := LocalPort pf |}.

(** Modelled from the spec: [AddProxyForward(name, pf)] (pkg/proxy/proxy.go
    is missing from the sources).  Spec 4.2: registers a forward; calls the
    hostfile editor for [(proxy_ip, target_hostname)]; advances cursors.
    TestAddProxyForward: one call moves [latestPort] from "9400" to "9401"
    and [ipLastByte] from 1 to 2. *)
Definition AddProxyForward (name : string) (pf : ProxyForward) (p : proxy) : proxy :=
  let pf' := allocate p pf in
  {| ProxyForwards := <[name := pf']> (ProxyForwards p);
     latestPort := Itoa (Atoi (latestPort p) + 1);
     ipLastByte := (ipLastByte p + 1)%N;
     hostfile := AddHost (ProxyIP pf') (TargetHostname pf') (hostfile p) |}.

(** A sequence of registrations, first to last. *)
Definition registerAll (regs : list (string * ProxyForward)) (p : proxy) : proxy :=
  fold_left (fun q r => AddProxyForward r.1 r.2 q) regs p.

(** The [(proxy_ip, proxy_port)] pair of a registered forward. *)
Definition allocation (pf : ProxyForward) : string * string :=
  (ProxyIP pf, ProxyPort pf).


(** How many lines of the managed region map [hostname] to [ip]. *)
Definition hostEntries (ip hostname : string) (h : Hostfile) : nat :=
  length (filter (fun e => e = (ip, hostname)) (region h)).

(** Live forwards (the entries of the map) hold ports below the cursor, one
    port per name. *)
Definition allocationInv (p : proxy) : Prop :=
  exists c : N,
    latestPort p = Itoa c
    /\ (forall n pf, ProxyForwards p !! n = Some pf ->
          exists k : N, (k < c)%N /\ ProxyPort pf = Itoa k)
    /\ (forall n1 n2 pf1 pf2, n1 <> n2 ->
          ProxyForwards p !! n1 = Some pf1 -> ProxyForwards p !! n2 = Some pf2 ->
          ProxyPort pf1 <> ProxyPort pf2).

(** The managed region has no repeated line and holds the line of every
    live forward. *)
Definition hostfileInv (p : proxy) : Prop :=
  NoDup (region (hostfile p))
  /\ forall n pf, ProxyForwards p !! n = Some pf ->
       (ProxyIP pf, TargetHostname pf) ∈ region (hostfile p).

(** The three forwards of the spec's boundary example. *)
Definition threeForwards : list (string * ProxyForward) :=
  [("auth", NewProxyForward "auth" "auth.prod" "" "80" "8080");
   ("billing", NewProxyForward "billing" "billing.prod" "" "80" "8080");
   ("cart", NewProxyForward "cart" "cart.prod" "" "80" "8080")].

(** The test cases of TestAddProxyForwardWhenMultiple. *)
Definition testCases : list (string * ProxyForward) :=
  [("test", NewProxyForward "test" "hostname.svc.local" "" "8080" "8081");
   ("test-2", NewProxyForward "test-2" "hostname2.svc.local" "" "8080" "8081");
   ("test-2", NewProxyForward "test-2" "hostname3.svc.local" "" "8081" "8082")].

End Proxy.

(* ===================================================================== *)
(** * Package [run]: the environment of a child process.
      Only pkg/run/env_test.go is among the sources.                      *)
(* ===================================================================== *)

Module Run.

(** What the runner reads from the machine it runs on. *)
Record Host : Type := {
  environ  : gmap string string;               (* os.Environ() *)
  readFile : string -> option (list string);   (* the lines of a file *)
  lookPath : string -> bool                    (* the executable can be run *)
}.

(** Splits [KEY=VALUE] at the first [=]. *)
Fixpoint splitEq (s : string) : option (string * string) :=
  match s with
  | EmptyString => None
  | String c rest =>
      if Ascii.eqb c "="%char then Some (EmptyString, rest)
      else match splitEq rest with
           | Some (k, v) => Some (String c k, v)
           | None => None
           end
  end.

(** Modelled from the spec: one line of an [env_file]; spec 4.4: KEY=VALUE
    pairs, skipping blank lines and [#] comments.  A line without [=] is
    not a pair and is skipped too. *)
Definition parseLine (line : string) : option (string * string) :=
  match line with
  | EmptyString => None
  | String c _ => if Ascii.eqb c "#"%char then None else splitEq line
  end.

Definition parseEnvFile (lines : list string) : list (string * string) :=
  omap parseLine lines.

(** Modelled from the spec: the pairs of the application's [env_file], in
    file order; none when no file is configured or it cannot be read. *)
Definition envFilePairs (host : Host) (app : Config.Application)
  : list (string * string) :=
  if decide (Config.EnvFile app = "") then []
  else match readFile host (Config.EnvFile app) with
       | Some lines => parseEnvFile lines
       | None => []
       end.

(** Overlaying pairs in order: a later pair replaces an earlier one. *)
Definition overlayPairs (kvs : list (string * string)) (e : gmap string string)
  : gmap string string :=
  fold_left (fun m kv => <[kv.1 := kv.2]> m) kvs e.

(** Overlaying a map: its entries replace those of the base. *)
Definition overlayMap (top base : gmap string string) : gmap string string :=
  top ∪ base.

(** The value a list of pairs gives a key: that of its last pair. *)
Fixpoint lastValue (k : string) (kvs : list (string * string)) : option string :=
  match kvs with
  | [] => None
  | kv :: rest =>
      match lastValue k rest with
      | Some v => Some v
      | None => if decide (kv.1 = k) then Some kv.2 else None
      end
  end.

Definition upperAscii (c : ascii) : ascii :=
  let n := nat_of_ascii c in
  if (Nat.leb 97 n && Nat.leb n 122)%bool then ascii_of_nat (n - 32) else c.

(** [strings.ToUpper] on ASCII names. *)
Fixpoint ToUpper (s : string) : string :=
  match s with
  | EmptyString => EmptyString
  | String c rest => String (upperAscii c) (ToUpper rest)
  end.

(** Modelled from the spec: the variable injected for a live forward,
    [PROXY_FORWARD_<uppercase_name>=<proxy_ip>:<proxy_port>]. *)
Definition proxyEnvName (pf : Proxy.ProxyForward) : string :=
  "PROXY_FORWARD_" +:+ ToUpper (Proxy.Name pf).

Definition proxyEnvValue (pf : Proxy.ProxyForward) : string :=
  Proxy.ProxyIP pf +:+ ":" +:+ Proxy.ProxyPort pf.

Definition proxyEnvPairs (p : Proxy.proxy) : list (string * string) :=
  (fun e => (proxyEnvName e.2, proxyEnvValue e.2)) <$> map_to_list (Proxy.ProxyForwards p).

(** Modelled from the spec: environment composition, spec 4.4, in the
    order the spec gives: start with the current process environment,
    overlay the [env_file] pairs, overlay the inline [env] map, and
    additionally inject the [PROXY_FORWARD_*] variable of each live
    ProxyForward.  Whether an injected variable replaces a variable of the
    same name that the application sets is not said; here the injection is
    one more overlay. *)
Definition composeEnv (host : Host) (p : Proxy.proxy) (app : Config.Application)
  : gmap string string :=
  let e0 := environ host in
  let e1 := overlayPairs (envFilePairs host app) e0 in
  let e2 := overlayMap (Config.Env app) e1 in
  overlayPairs (proxyEnvPairs p) e2.

(** The command of a launched child ([exec.Cmd]): executable, arguments,
    working directory and effective environment. *)
Record Cmd : Type := {
  CmdPath : string;
  CmdArgs : list string;
  CmdDir  : string;
  CmdEnv  : gmap string string
}.

(** Modelled from the spec: the [runner] struct; the tests read its [cmds]
    map, keyed by application name. *)
Record runner : Type := {
  proxy : Proxy.proxy;
  cmds  : gmap string Cmd
}.

(** Modelled from the spec: [NewRunner(view, proxy, project)]. *)
Definition NewRunner (p : Proxy.proxy) : runner := {| proxy := p; cmds := ∅ |}.

(** Modelled from the spec: [Run(app)] (pkg/run/runner.go is missing from
    the sources).  Spec 4.4: resolves the working directory, composes the
    environment, builds the command, launches it and stores the handle.
    An application whose executable cannot be run launches nothing. *)
Definition Run (host : Host) (os : Config.OS) (app : Config.Application) (r : runner)
  : runner :=
  if lookPath host (Config.Executable app) then
    let cmd := {| CmdPath := Config.Executable app;
                  CmdArgs := Config.Args app;
                  CmdDir := Config.GetPath os app;
                  CmdEnv := composeEnv host (proxy r) app |} in
    {| proxy := proxy r; cmds := <[Config.Name app := cmd]> (cmds r) |}
  else r.

(** The machine of the spec's scenario 3: the [env_file] has MY_VAR=other
    and F_VAR=f. *)
Definition scenarioHost : Host :=
  {| environ := {["HOME" := "/home/dev"]};
     readFile := fun path =>
       if decide (path = ".env")
       then Some ["# settings"; ""; "MY_VAR=other"; "F_VAR=f"] else None;
     lookPath := fun exe => bool_decide (exe = "echo") |}.

Definition scenarioApp (env : gmap string string) : Config.Application :=
  {| Config.Name := "api"; Config.Path := "/"; Config.Executable := "echo";
     Config.Hostname := ""; Config.Watch := false; Config.Env := env;
     Config.Args := ["OK"]; Config.EnvFile := ".env" |}.

End Run.

(* ===================================================================== *)
(** * Package [rest]: the retry helper of the vendored Kubernetes client
      (src/unnamed/part_003)                                              *)
(* ===================================================================== *)

Module Rest.

Local Open Scope Z_scope.

(** Go's [int] and [int64] on the supported platforms: 64 bits, two's
    complement, arithmetic wraps around. *)
Definition wrap64 (z : Z) : Z := (z + 2 ^ 63) mod 2 ^ 64 - 2 ^ 63.

Definition error : Type := string.

Definition StatusTooManyRequests : Z := 429.

Definition StatusInternalServerError : Z := 500.

(** [time.Second], in nanoseconds. *)
Definition Second : Z := 1000000000.

(** [http.Response], as far as this file reads it. *)
Record Response : Type := {
  StatusCode : Z;
  Header     : list (string * list string)
}.

(** Whether the byte [c] lies between [lo] and [hi]. *)
Definition byteBetween (lo hi c : ascii) : bool :=
  (N_of_ascii lo <=? N_of_ascii c)%N && (N_of_ascii c <=? N_of_ascii hi)%N.

(** [validHeaderFieldByte] of net/textproto: the bytes of an HTTP token. *)
Definition validHeaderFieldByte (c : ascii) : bool :=
  byteBetween "0" "9" c || byteBetween "a" "z" c || byteBetween "A" "Z" c
  || existsb (Ascii.eqb c)
       ["!"; "#"; "$"; "%"; "&"; "'"; "*"; "+"; "-"; "."; "^"; "_"; "`"; "|"; "~"]%char.

(** The loop of [canonicalMIMEHeaderKey]: the first letter and every letter
    after a dash in upper case, every other letter in lower case. *)
Fixpoint canonicalBytes (upper : bool) (s : string) : string :=
  match s with
  | EmptyString => EmptyString
  | String c rest =>
      let c' := if upper && byteBetween "a" "z" c then ascii_of_N (N_of_ascii c - 32)
                else if negb upper && byteBetween "A" "Z" c then ascii_of_N (N_of_ascii c + 32)
                else c in
      String c' (canonicalBytes (Ascii.eqb c' "-") rest)
  end.

(** Whether every byte of the key is a token byte. *)
Fixpoint validHeaderKey (s : string) : bool :=
  match s with
  | EmptyString => true
  | String c rest => validHeaderFieldByte c && validHeaderKey rest
  end.

(** [textproto.CanonicalMIMEHeaderKey]: a key of token bytes only is put in
    canonical form; a key with a space or any other byte is returned
    unchanged. *)
Definition CanonicalMIMEHeaderKey (s : string) : string :=
  if validHeaderKey s
  then canonicalBytes true s
  else s.

(** [Header.Get]: the first value stored under the canonical form of the
    key, or "".  The stored keys are compared as they are. *)
Definition HeaderGet (h : list (string * list string)) (key : string) : string :=
  match List.find (fun kv => String.eqb kv.1 (CanonicalMIMEHeaderKey key)) h with
  | Some (_, v :: _) => v
  | _ => ""%string
  end.

(** [http.Request]: only handed on to the retryable-error function. *)
Record HttpRequest : Type := { Method : string; URL : string }.

(** The request body: nil, a reader that cannot seek, or one that can,
    with the outcome of [Seek(0, 0)]. *)
Inductive Body : Type :=
| BodyNil
| BodyReader
| BodySeeker (seekFails : bool).

(** [rest.Request], as far as this file reads it. *)
Record Request : Type := { body : Body }.

(** [context.Context]: [ctx.Err()]. *)
Record Context : Type := { Err : option error }.

(** [IsRetryableErrorFunc] determines whether the error the server sent is
    retryable. *)
Definition IsRetryableErrorFunc : Type := HttpRequest -> error -> bool.

Definition IsErrorRetryable (r : IsRetryableErrorFunc) (request : HttpRequest)
    (err : error) : bool :=
  r request err.

Definition neverRetryError : IsRetryableErrorFunc := fun _ _ => false.

(** What [getRetryReason] formats into its message. *)
Inductive RetryReason : Type :=
| NoReason
| ServerSideThrottling (retries seconds : Z) (flowSchemaUID : string)
| RetryableError (retries seconds : Z) (err : error)
| StatusReason (retries seconds : Z) (statusCode : Z).

(** [RetryAfter] holds information associated with the next retry. *)
Record RetryAfter : Type := {
  Wait    : Z;
  Attempt : Z;
  Reason  : RetryReason
}.

Record withRetry : Type := {
  maxRetries : Z;
  attempts   : Z;
  retryAfter : option RetryAfter
}.

Definition SetMaxRetries (n : Z) (r : withRetry) : withRetry :=
  let n := if n <? 0 then 0 else n in
  {| maxRetries := n; attempts := attempts r; retryAfter := retryAfter r |}.

Definition retryAfterResponse : Response :=
  {| StatusCode := StatusInternalServerError;
     Header := [("Retry-After"%string, ["1"%string])] |}.

Definition getRetryReason (retries seconds : Z) (resp : Response) (err : option error)
  : RetryReason :=
  if resp.(StatusCode) =? StatusTooManyRequests then
    ServerSideThrottling retries seconds
      (HeaderGet resp.(Header) "X-Kubernetes-PF-FlowSchema-UID")
  else match err with
       | Some e => RetryableError retries seconds e
       | None => StatusReason retries seconds resp.(StatusCode)
       end.

(** [prepareForNextRetry]: the error it returns, if any. *)
Definition prepareForNextRetry (ctx : Context) (request : Request) : option error :=
  match Err ctx with
  | Some e => Some e
  | None =>
      match body request with
      | BodySeeker true => Some "can't Seek() back to beginning of body"%string
      | _ => None
      end
  end.

Section WithRetryAfterSeconds.

(** [retryAfterSeconds] is declared in another file of the package: it
    reads the number of seconds of the response's Retry-After header. *)
Variable retryAfterSeconds : Response -> Z * bool.

(** [checkWait] returns true along with a number of seconds if the server
    instructed us to wait before retrying. *)
Definition checkWait (resp : Response) : Z * bool :=
  if (resp.(StatusCode) =? StatusTooManyRequests) || (500 <=? resp.(StatusCode))
  then retryAfterSeconds resp
  else (0, false).

(** [IsNextRetry]: the receiver after the call, and the result. *)
Definition IsNextRetry (r : withRetry) (ctx : Context) (restReq : Request)
    (httpReq : option HttpRequest) (resp : option Response) (err : option error)
    (f : option IsRetryableErrorFunc) : withRetry * bool :=
  match httpReq with
  | None => (r, false)                       (* bad input, we do nothing. *)
  | Some hreq =>
    if bool_decide (resp = None) && bool_decide (err = None) then (r, false)
    else
      (* r.attempts++ *)
      let n := wrap64 (attempts r + 1) in
      let r1 := {| maxRetries := maxRetries r; attempts := n;
                   retryAfter := Some {| Wait := 0; Attempt := n; Reason := NoReason |} |} in
      if maxRetries r <? n then (r1, false)
      else
        (* if the server returned an error, it takes precedence over the
           http response. *)
        let errIsRetryable :=
          match f, err with
          | Some f, Some e => IsErrorRetryable f hreq e
          | _, _ => false
          end in
        let resp := if errIsRetryable then Some retryAfterResponse else resp in
        if bool_decide (err <> None) && negb errIsRetryable then (r1, false)
        else
          match resp with
          | None => (r1, false)   (* not reached: see [IsNextRetry_resp_set] *)
          | Some rs =>
            let '(seconds, wait) := checkWait rs in
            if negb wait then (r1, false)
            else
              let r2 := {| maxRetries := maxRetries r; attempts := n;
                           retryAfter :=
                             Some {| Wait := wrap64 (seconds * Second);
                                     Attempt := n;
                                     Reason := getRetryReason n seconds rs err |} |} in
              match prepareForNextRetry ctx restReq with
              | Some _ => (r2, false)
              | None => (r2, true)
              end
          end
  end.

(** The arguments of one call. *)
Record Call : Type := {
  callCtx     : Context;
  callRestReq : Request;
  callHttpReq : option HttpRequest;
  callResp    : option Response;
  callErr     : option error;
  callF       : option IsRetryableErrorFunc
}.

Definition callIsNextRetry (r : withRetry) (c : Call) : withRetry * bool :=
  IsNextRetry r (callCtx c) (callRestReq c) (callHttpReq c) (callResp c)
    (callErr c) (callF c).

(** A sequence of calls on one receiver: the receiver at the end and the
    results, first to last. *)
Fixpoint callSequence (r : withRetry) (cs : list Call) : withRetry * list bool :=
  match cs with
  | [] => (r, [])
  | c :: cs' =>
      let '(r', b) := callIsNextRetry r c in
      let '(r'', bs) := callSequence r' cs' in
      (r'', b :: bs)
  end.

(** The same sequence, call by call: the receiver before the call, the
    arguments and the result. *)
Fixpoint callLog (r : withRetry) (cs : list Call) : list (withRetry * Call * bool) :=
  match cs with
  | [] => []
  | c :: cs' =>
      let '(r', b) := callIsNextRetry r c in
      (r, c, b) :: callLog r' cs'
  end.

End WithRetryAfterSeconds.

(** How many calls of a sequence answered true. *)
Definition countTrue (bs : list bool) : Z :=
  Z.of_nat (length (filter (fun b => b = true) bs)).

(** A stand-in for [retryAfterSeconds]: one second whenever the response
    carries a Retry-After header. *)
Definition sampleRetryAfterSeconds (resp : Response) : Z * bool :=
  if String.eqb (HeaderGet (Header resp) "Retry-After") "" then (0, false) else (1, true).

Definition freshRetry : withRetry :=
  {| maxRetries := 0; attempts := 0; retryAfter := None |}.

Definition throttled : Response :=
  {| StatusCode := 429; Header := [("Retry-After"%string, ["1"%string])] |}.

(** A 429 as the API server's priority-and-fairness filter sends it, with
    the headers under the canonical keys net/http stores them by. *)
Definition throttledByFlowSchema : Response :=
  {| StatusCode := 429;
     Header := [("Retry-After"%string, ["1"%string]);
                ("X-Kubernetes-Pf-Flowschema-Uid"%string, ["fs-42"%string])] |}.

(** A call that could be retried: a 429 with Retry-After, a live context
    and no body to rewind. *)
Definition retryableCall : Call :=
  {| callCtx := {| Err := None |}; callRestReq := {| body := BodyNil |};
     callHttpReq := Some {| Method := "GET"; URL := "/api" |};
     callResp := Some throttled; callErr := None; callF := None |}.

Definition nilRequestCall : Call :=
  {| callCtx := {| Err := None |}; callRestReq := {| body := BodyNil |};
     callHttpReq := None; callResp := Some throttled; callErr := None; callF := None |}.

(** ** [Before], [After] and [readAndCloseResponseBody] *)

(** The calls [Before] and [After] make on their collaborators, in order:
    [BackoffManager.Sleep], [BackoffManager.UpdateBackoff] and the
    request's [tryThrottleWithInfo]. *)
Inductive Effect : Type :=
| Sleep (d : Z)
| UpdateBackoff (url : string) (err : option error) (responseCode : Z)
| TryThrottle (reason : RetryReason).

(** [BackoffManager], as far as its answers are read: what
    [CalculateBackoff] returns for a URL. *)
Record BackoffManager : Type := { CalculateBackoff : string -> Z }.

(** [rest.Request] as [Before] and [After] read it: its URL, its back-off
    manager (an interface value, nil or not), whether [request.c.base] is
    set, and what [tryThrottleWithInfo] returns for a reason. *)
Record RequestState : Type := {
  reqURL      : string;
  reqBackoff  : option BackoffManager;
  reqHasBase  : bool;
  reqThrottle : RetryReason -> option error
}.

(** A Go call either returns or panics on a nil interface or nil pointer. *)
Inductive Outcome (A : Type) : Type :=
| Returned (a : A)
| NilDereference.

Arguments Returned {A} a.
Arguments NilDereference {A}.

(** [Before]: the calls it makes, and the error it returns. *)
Definition Before (r : withRetry) (ctx : Context) (request : RequestState)
  : list Effect * Outcome (option error) :=
  match Err ctx with
  | Some e => ([], Returned (Some e))
  | None =>
      let url := reqURL request in
      match retryAfter r with
      | None =>
          (* we do a backoff sleep before the first attempt is made *)
          match reqBackoff request with
          | Some b => ([Sleep (CalculateBackoff b url)], Returned None)
          | None => ([], NilDereference)
          end
      | Some ra =>
          (* if we are here, we have made attempt(s) at least once before. *)
          let sleeps :=
            match reqBackoff request with
            | Some b => [Sleep (Wait ra); Sleep (CalculateBackoff b url)]
            | None => []
            end in
          ((sleeps ++ [TryThrottle (Reason ra)])%list,
           Returned (reqThrottle request (Reason ra)))
      end
  end.

(** [After]: the receiver after the call, the calls it makes, and whether
    it returns. *)
Definition After (r : withRetry) (request : RequestState) (resp : option Response)
    (err : option error) : withRetry * list Effect * Outcome unit :=
  let r' := {| maxRetries := maxRetries r; attempts := attempts r; retryAfter := None |} in
  if reqHasBase request then
    match reqBackoff request with
    | None => (r', [], NilDereference)
    | Some _ =>
        match err with
        | Some e => (r', [UpdateBackoff (reqURL request) (Some e) 0], Returned tt)
        | None =>
            match resp with
            | Some rs => (r', [UpdateBackoff (reqURL request) None (StatusCode rs)], Returned tt)
            | None => (r', [], NilDereference)
            end
        end
    end
  else (r', [], Returned tt).

(** The body of a response: the bytes its reader still delivers before it
    reports EOF or an error, and whether it has been closed. *)
Record ResponseBody : Type := {
  unread : list Byte.byte;
  closed : bool
}.

(** [http.Response] as [readAndCloseResponseBody] reads it; the declared
    [ContentLength] is -1 when unknown. *)
Record BodyResponse : Type := {
  ContentLength : Z;
  RespBody      : ResponseBody
}.

(** [const maxBodySlurpSize = 2 << 10]. *)
Definition maxBodySlurpSize : Z := Z.shiftl 2 10.

(** [io.Copy(ioutil.Discard, &io.LimitedReader{R: body, N: n})]: the body
    after at most [n] bytes were read off it. *)
Definition copyLimited (n : Z) (b : ResponseBody) : ResponseBody :=
  {| unread := drop (Z.to_nat n) (unread b); closed := closed b |}.

(** [readAndCloseResponseBody]: the response afterwards (nil stays nil). *)
Definition readAndCloseResponseBody (resp : option BodyResponse) : option BodyResponse :=
  match resp with
  | None => None
  | Some rs =>
      let b := if ContentLength rs <=? maxBodySlurpSize
               then copyLimited maxBodySlurpSize (RespBody rs)
               else RespBody rs in
      (* defer resp.Body.Close() *)
      Some {| ContentLength := ContentLength rs;
              RespBody := {| unread := unread b; closed := true |} |}
  end.

(** The operations a client performs on one [withRetry] between attempts. *)
Inductive Op : Type :=
| OpSetMaxRetries (n : Z)
| OpIsNextRetry (c : Call)
| OpAfter (request : RequestState) (resp : option Response) (err : option error).

Definition applyOp (retryAfterSeconds : Response -> Z * bool) (r : withRetry) (o : Op)
  : withRetry :=
  match o with
  | OpSetMaxRetries n => SetMaxRetries n r
  | OpIsNextRetry c => fst (callIsNextRetry retryAfterSeconds r c)
  | OpAfter request resp err => fst (fst (After r request resp err))
  end.

Definition applyOps (retryAfterSeconds : Response -> Z * bool) (r : withRetry)
    (os : list Op) : withRetry :=
  fold_left (applyOp retryAfterSeconds) os r.

(** The response [checkWait] is asked about: the artificial Retry-After
    response when the server sent an error, else the server's response. *)
Definition effectiveResponse (resp : option Response) (err : option error)
  : option Response :=
  match err with
  | Some _ => Some retryAfterResponse
  | None => resp
  end.

(** The retry parameters agree with the attempt counter. *)
Definition attemptRecorded (r : withRetry) : Prop :=
  forall ra, retryAfter r = Some ra -> Attempt ra = attempts r.

(** A context that is cancelled, and a request with a back-off manager. *)
Definition cancelledCtx : Context := {| Err := Some "context canceled"%string |}.

Definition liveCtx : Context := {| Err := None |}.

Definition sampleRequestState : RequestState :=
  {| reqURL := "/api"; reqBackoff := Some {| CalculateBackoff := fun _ => 250 |};
     reqHasBase := true; reqThrottle := fun _ => None |}.

Definition sampleHttpRequest : HttpRequest := {| Method := "GET"; URL := "/api" |}.

Definition notFound : Response :=
  {| StatusCode := 404; Header := [("Retry-After"%string, ["1"%string])] |}.

End Rest.

(* ===================================================================== *)
(** * Properties of package [config]                                      *)
(* ===================================================================== *)

Section ConfigProperties.

Import Config.

(** The proxified map answers for the three proxy-backed types only. *)
Lemma ProxifiedForwarders_lookup (t : string) :
  ProxifiedForwarders !! t =
    if decide (t = "kubernetes") then Some true
    else if decide (t = "kubernetes-remote") then Some true
    else if decide (t = "ssh") then Some true
    else None.
Proof.
  unfold ProxifiedForwarders, ForwarderKubernetes, ForwarderKubernetesRemote, ForwarderSSH.
  rewrite !lookup_insert, lookup_empty.
  repeat case_decide; congruence.
Qed.

(** C3. [IsProxified] is true exactly for the types "kubernetes",
    "kubernetes-remote" and "ssh"; it is false for every other type, among
    them "ssh-remote", the empty string and unknown types. *)
Theorem IsProxified_exactly_proxified_types :
  forall f : Forward,
    (IsProxified f = true <->
       Type_ f = "kubernetes" \/ Type_ f = "kubernetes-remote" \/ Type_ f = "ssh")
    /\ (IsProxified f = false <->
          Type_ f <> "kubernetes" /\ Type_ f <> "kubernetes-remote" /\ Type_ f <> "ssh")
    /\ IsProxified {| ForwardName := ForwardName f; Type_ := "ssh-remote";
                      Values := Values f |} = false
    /\ IsProxified {| ForwardName := ForwardName f; Type_ := "";
                      Values := Values f |} = false.
Proof.
  intros f. unfold IsProxified. rewrite !ProxifiedForwarders_lookup. cbn.
  repeat case_decide; repeat split; intros; try congruence; try tauto;
    try discriminate; intuition congruence.
Qed.

Example IsProxified_kubernetes v :
  IsProxified {| ForwardName := "auth"; Type_ := "kubernetes"; Values := v |} = true.
Proof. reflexivity. Qed.

Example IsProxified_unknown v :
  IsProxified {| ForwardName := "auth"; Type_ := "docker"; Values := v |} = false.
Proof. reflexivity. Qed.

(** With "go" and a path on which [os.Stat] succeeds, or fails with an
    error other than not-exist, the path is kept. *)
Lemma GetPath_go_existing (os : OS) (a : Application) :
  Executable a = "go" -> Stat os (Path a) <> StatNotExist -> GetPath os a = Path a.
Proof.
  intros Hexe Hstat. unfold GetPath. case_decide; [| reflexivity].
  destruct (Stat os (Path a)); cbn; congruence.
Qed.

(** On the sample disk the path /etc/passwd/x does not exist, and a "go"
    application with that path keeps it: [os.Stat] fails below the regular
    file /etc/passwd with an error that [os.IsNotExist] rejects, so the
    path is not moved under [$GOPATH/src/]. *)
Lemma GetPath_keeps_missing_path_below_a_file :
  onDisk sampleDisk "/etc/passwd/x" = false
  /\ Executable (sampleApp "go" "/etc/passwd/x") = "go"
  /\ GetPath (diskOS sampleDisk) (sampleApp "go" "/etc/passwd/x") = "/etc/passwd/x"
  /\ GetPath (diskOS sampleDisk) (sampleApp "go" "/etc/passwd/x")
       <> Getenv (diskOS sampleDisk) "GOPATH" +:+ "/src/" +:+ "/etc/passwd/x".
Proof.
  split; [reflexivity |]. split; [reflexivity |]. split; [reflexivity |].
  vm_compute. discriminate.
Qed.

(** A path that does not exist and lies below no regular file is reported
    as not existing. *)
Lemma statOn_missing (d : Disk) (path : string) :
  onDisk d path = false ->
  existsb (fun f => String.prefix (f +:+ "/") path) (files d) = false ->
  statOn d path = StatNotExist.
Proof. intros Hdisk Hfile. unfold statOn. now rewrite Hdisk, Hfile. Qed.

(** [os.Stat] succeeds exactly on the paths that exist. *)
Lemma statOn_ok (d : Disk) (path : string) :
  statOn d path = StatOk <-> onDisk d path = true.
Proof.
  unfold statOn. destruct (onDisk d path); [tauto |].
  destruct (existsb _ _); split; discriminate.
Qed.

(** C4. With the executable "go" and a path for which [os.Stat] fails with
    an error that [os.IsNotExist] accepts, [GetPath] is [$GOPATH/src/]
    followed by the path; with "go" and any other outcome of [os.Stat]
    (success, or another error) it is the path unchanged; with any other
    executable it is the path unchanged, whatever [os.Stat] says about
    it. *)
Theorem GetPath_go_missing_or_literal :
  forall (os : OS) (a : Application),
    (Executable a = "go" -> IsNotExist (Stat os (Path a)) = true ->
       GetPath os a = Getenv os "GOPATH" +:+ "/src/" +:+ Path a)
    /\ (Executable a = "go" -> IsNotExist (Stat os (Path a)) = false ->
         GetPath os a = Path a)
    /\ (Executable a <> "go" -> GetPath os a = Path a).
Proof.
  intros os a. unfold GetPath, ExecutableGo, SprintfSrc. split; [| split].
  - intros Hexe Hstat. rewrite Hstat. case_decide; [reflexivity | contradiction].
  - intros Hexe Hstat. rewrite Hstat. case_decide; reflexivity.
  - intros Hexe. case_decide; [contradiction | reflexivity].
Qed.

Lemma GetPath_go_missing_or_literal_witness :
  GetPath sampleOS (sampleApp "go" "github.com/acme/api")
    = "/home/dev/go/src/github.com/acme/api"
  /\ GetPath (diskOS sampleDisk) (sampleApp "go" "/etc/passwd/x") = "/etc/passwd/x"
  /\ GetPath (diskOS sampleDisk) (sampleApp "go" "/etc") = "/etc"
  /\ GetPath sampleOS (sampleApp "echo" "github.com/acme/api") = "github.com/acme/api".
Proof.
  split; [| split; [| split]].
  - exact (proj1 (GetPath_go_missing_or_literal sampleOS
                    (sampleApp "go" "github.com/acme/api")) eq_refl eq_refl).
  - exact (proj1 (proj2 (GetPath_go_missing_or_literal (diskOS sampleDisk)
                           (sampleApp "go" "/etc/passwd/x"))) eq_refl eq_refl).
  - exact (proj1 (proj2 (GetPath_go_missing_or_literal (diskOS sampleDisk)
                           (sampleApp "go" "/etc"))) eq_refl eq_refl).
  - refine (proj2 (proj2 (GetPath_go_missing_or_literal sampleOS
                            (sampleApp "echo" "github.com/acme/api"))) _).
    discriminate.
Defined.

End ConfigProperties.

(* ===================================================================== *)
(** * Properties of the lifecycle root                                    *)
(* ===================================================================== *)

Section MainProperties.

Import Main.

(** [stopAll] always runs to its [os.Exit(0)], appending its five steps. *)
Lemma stopAll_trace (tr : list event) :
  stopAll tr =
    ((tr ++ [Print MsgStopAllBye; WatcherStop; ForwarderStop; ProxyStop; RunnerStop])%list,
     inl (Exited 0)).
Proof.
  unfold stopAll, emit, osExit, mbind, Proc_bind. cbn.
  repeat rewrite <- app_assoc. reflexivity.
Qed.

Example interruptWorld_trace :
  traceOf interruptWorld =
    [InitRuntimeEnvironment; Print MsgNewline; LayoutInit; GoWatcherWatch; SignalReceived;
     Print MsgStopAllBye; WatcherStop; ForwarderStop; ProxyStop; RunnerStop].
Proof. reflexivity. Qed.

Example uiQuitWorld_trace :
  traceOf uiQuitWorld =
    [InitRuntimeEnvironment; Print MsgNewline; LayoutInit; GoWatcherWatch; StatusWritef;
     GuiClose; Print MsgStopAllBye; WatcherStop; ForwarderStop; ProxyStop; RunnerStop].
Proof. reflexivity. Qed.

Example configErrorWorld_trace :
  execute configErrorWorld = ([InitRuntimeEnvironment; Print MsgConfigError], Exited 0).
Proof. reflexivity. Qed.

(** C1, as the program has it.  In every shutdown run the Stop calls are,
    in this order, Watcher, Forwarder, Proxy, Runner: Forwarder.Stop comes
    before Proxy.Stop, and Runner.Stop comes after Proxy.Stop, hence not
    before Forwarder.Stop. *)
Theorem shutdown_order_watcher_forwarder_proxy_runner :
  forall w : World,
    shutdownRun w = true ->
    stops (traceOf w) = [WatcherStop; ForwarderStop; ProxyStop; RunnerStop]
    /\ before WatcherStop ForwarderStop (traceOf w) = true
    /\ before ForwarderStop ProxyStop (traceOf w) = true
    /\ before ProxyStop RunnerStop (traceOf w) = true
    /\ before RunnerStop ForwarderStop (traceOf w) = false.
Proof.
  intros [d eu fu cl pr pn hn sk ml sg cf es].
  explore_world; intros H; try discriminate H; repeat split; reflexivity.
Qed.

Lemma shutdown_order_witness :
  shutdownRun interruptWorld = true
  /\ stops (traceOf interruptWorld) = [WatcherStop; ForwarderStop; ProxyStop; RunnerStop]
  /\ before WatcherStop ForwarderStop (traceOf interruptWorld) = true
  /\ before ForwarderStop ProxyStop (traceOf interruptWorld) = true
  /\ before ProxyStop RunnerStop (traceOf interruptWorld) = true
  /\ before RunnerStop ForwarderStop (traceOf interruptWorld) = false.
Proof.
  split; [reflexivity |].
  exact (shutdown_order_watcher_forwarder_proxy_runner interruptWorld eq_refl).
Defined.

(** C1 as stated fails: in the shutdown run of [interruptWorld] Runner.Stop
    is not invoked before Forwarder.Stop; it is the other way round. *)
Lemma runner_stop_not_before_forwarder_stop :
  shutdownRun interruptWorld = true
  /\ before RunnerStop ForwarderStop (traceOf interruptWorld) = false
  /\ before ForwarderStop RunnerStop (traceOf interruptWorld) = true.
Proof. repeat split; reflexivity. Qed.

(** C2, as the program has it.  The exit status is 0 when an interrupt is
    received, when [config.Load] returns an error, after every shutdown and
    when the [edit] command returns; it is 1 when [rootCmd.Execute] returns
    an error. *)
Theorem exit_status_by_cause :
  forall w : World,
    (interrupted w = true -> exitStatus w = Some 0%Z)
    /\ (configLoadFails w = true -> exitStatus w = Some 0%Z)
    /\ (shutdownRun w = true -> exitStatus w = Some 0%Z)
    /\ (dispatch w = DispatchEdit -> exitStatus w = Some 0%Z)
    /\ (dispatch w = DispatchError -> exitStatus w = Some 1%Z).
Proof.
  intros [d eu fu cl pr pn hn sk ml sg cf es].
  explore_world; repeat split; intros; try reflexivity; discriminate.
Qed.

Lemma exit_status_by_cause_witness :
  interrupted interruptWorld = true
  /\ exitStatus interruptWorld = Some 0%Z
  /\ configLoadFails configErrorWorld = true
  /\ exitStatus configErrorWorld = Some 0%Z
  /\ exitStatus uiQuitWorld = Some 0%Z
  /\ exitStatus badCommandWorld = Some 1%Z.
Proof.
  split; [reflexivity |].
  split; [exact (proj1 (exit_status_by_cause interruptWorld) eq_refl) |].
  split; [reflexivity |].
  split; [exact (proj1 (proj2 (exit_status_by_cause configErrorWorld)) eq_refl) |].
  split; [exact (proj1 (proj2 (proj2 (exit_status_by_cause uiQuitWorld))) eq_refl) |].
  exact (proj2 (proj2 (proj2 (proj2 (exit_status_by_cause badCommandWorld)))) eq_refl).
Defined.

(** C2 as stated fails twice: the interrupted run ends with status 0, not
    130, and the run whose [config.Load] fails ends with status 0, not 1. *)
Lemma exit_status_not_130_not_1 :
  (interrupted interruptWorld = true
   /\ exitStatus interruptWorld = Some 0%Z
   /\ exitStatus interruptWorld <> Some 130%Z)
  /\ (configLoadFails configErrorWorld = true
      /\ exitStatus configErrorWorld = Some 0%Z
      /\ exitStatus configErrorWorld <> Some 1%Z).
Proof. repeat split; try reflexivity; discriminate. Qed.

End MainProperties.

(* ===================================================================== *)
(** * Properties of the proxy allocation                                  *)
(* ===================================================================== *)

Section ProxyProperties.

Import Proxy.

Lemma Atoi_Itoa (n : N) : Atoi (Itoa n) = n.
Proof.
  unfold Atoi, Itoa. rewrite NilEmpty.usu. apply DecimalN.Unsigned.of_to.
Qed.

Lemma Itoa_inj (m n : N) : Itoa m = Itoa n -> m = n.
Proof.
  intros H. rewrite <- (Atoi_Itoa m), <- (Atoi_Itoa n). now rewrite H.
Qed.

Lemma proxyIP_inj (m n : N) : proxyIP m = proxyIP n -> m = n.
Proof.
  unfold proxyIP. intros H. apply Itoa_inj. exact (String.app_inj _ _ _ H).
Qed.

Lemma registerAll_snoc regs r p :
  registerAll (regs ++ [r]) p = AddProxyForward r.1 r.2 (registerAll regs p).
Proof. unfold registerAll. now rewrite fold_left_app. Qed.

(** Each call moves both cursors by one. *)
Lemma registerAll_cursors regs : forall p c,
  latestPort p = Itoa c ->
  latestPort (registerAll regs p) = Itoa (c + N.of_nat (length regs))
  /\ ipLastByte (registerAll regs p) = (ipLastByte p + N.of_nat (length regs))%N.
Proof.
  induction regs as [| r regs IH]; intros p c Hc.
  - cbn. rewrite !N.add_0_r. auto.
  - change (registerAll (r :: regs) p) with (registerAll regs (AddProxyForward r.1 r.2 p)).
    destruct (IH (AddProxyForward r.1 r.2 p) (c + 1)%N) as [Hp Hi].
    { cbn. now rewrite Hc, Atoi_Itoa. }
    rewrite Hp, Hi. cbn [length ipLastByte AddProxyForward].
    rewrite Nat2N.inj_succ. split; [f_equal |]; lia.
Qed.

Lemma registerAll_NewProxy_cursors h regs :
  latestPort (registerAll regs (NewProxy h)) = Itoa (9400 + N.of_nat (length regs))
  /\ ipLastByte (registerAll regs (NewProxy h)) = (1 + N.of_nat (length regs))%N.
Proof. apply (registerAll_cursors regs (NewProxy h) 9400%N). reflexivity. Qed.

(** With distinct names, the forward of the i-th call is still the one
    registered under its name at the end. *)
Lemma registerAll_lookup h regs :
  NoDup regs.*1 ->
  forall (i : nat) name pf,
    regs !! i = Some (name, pf) ->
    ProxyForwards (registerAll regs (NewProxy h)) !! name
      = Some (allocate (registerAll (take i regs) (NewProxy h)) pf).
Proof.
  induction regs as [| r regs IH] using rev_ind; intros Hnd i name pf Hi.
  - discriminate.
  - rewrite fmap_app in Hnd. apply NoDup_app in Hnd as (Hnd & Hfresh & _).
    rewrite registerAll_snoc.
    destruct (decide (i < length regs)) as [Hlt | Hge].
    + rewrite lookup_app_l in Hi by assumption.
      rewrite take_app_le by lia.
      cbn [ProxyForwards AddProxyForward].
      rewrite lookup_insert_ne.
      * now apply IH.
      * intros Heq. apply (Hfresh name).
        -- apply list_elem_of_fmap. exists (name, pf). split; [reflexivity |].
           eapply list_elem_of_lookup_2; eassumption.
        -- cbn. rewrite Heq. left.
    + assert (i = length regs) as ->.
      { apply lookup_lt_Some in Hi. rewrite length_app in Hi. cbn in Hi. lia. }
      rewrite list_lookup_middle in Hi by reflexivity. injection Hi as ->.
      rewrite take_app_length. cbn [ProxyForwards AddProxyForward fst snd].
      now rewrite lookup_insert_eq.
Qed.

Lemma NewProxy_allocationInv h : allocationInv (NewProxy h).
Proof.
  exists 9400%N. split; [reflexivity |].
  split; intros *; cbn; rewrite ?lookup_empty; try discriminate.
Qed.

Lemma AddProxyForward_allocationInv name pf p :
  allocationInv p -> allocationInv (AddProxyForward name pf p).
Proof.
  intros (c & Hc & Hlt & Hdist). exists (c + 1)%N.
  split; [cbn; now rewrite Hc, Atoi_Itoa |].
  assert (Hnew : forall n q, ProxyForwards p !! n = Some q -> ProxyPort q <> latestPort p).
  { intros n q Hq. destruct (Hlt n q Hq) as (k & Hk & ->). rewrite Hc.
    intros Heq%Itoa_inj. lia. }
  split.
  - intros n q. cbn. rewrite lookup_insert. case_decide.
    + intros [= <-]. exists c. split; [lia | exact Hc].
    + intros Hq. destruct (Hlt n q Hq) as (k & Hk & Hport).
      exists k. split; [lia | exact Hport].
  - intros n1 n2 q1 q2 Hne. cbn. rewrite !lookup_insert.
    repeat case_decide; subst; try congruence.
    + intros [= <-] H2. cbn. intros Heq. symmetry in Heq. exact (Hnew _ _ H2 Heq).
    + intros H1 [= <-]. cbn. exact (Hnew _ _ H1).
    + now apply Hdist.
Qed.

Lemma registerAll_allocationInv regs : forall p,
  allocationInv p -> allocationInv (registerAll regs p).
Proof.
  induction regs as [| r regs IH]; intros p Hp; [exact Hp |].
  apply (IH (AddProxyForward r.1 r.2 p)). now apply AddProxyForward_allocationInv.
Qed.

(** C5. The cursors start at port 9400 and last byte 1 (127.1.2.1).  For
    every sequence of registrations with distinct names, the registration
    at position [i] (counted from 0, so the (i+1)-th) holds proxy_port
    9400+i and proxy_ip 127.1.2.(i+1), and the [(proxy_ip, proxy_port)]
    pairs of the live forwards are pairwise distinct. *)
Theorem allocation_starts_9400_and_steps_by_one :
  forall (h : Hostfile) (regs : list (string * ProxyForward)),
    NoDup regs.*1 ->
    latestPort (NewProxy h) = "9400"
    /\ proxyIP (ipLastByte (NewProxy h)) = "127.1.2.1"
    /\ (forall (i : nat) name pf,
          regs !! i = Some (name, pf) ->
          exists pf',
            ProxyForwards (registerAll regs (NewProxy h)) !! name = Some pf'
            /\ ProxyPort pf' = Itoa (9400 + N.of_nat i)
            /\ ProxyIP pf' = "127.1.2." +:+ Itoa (1 + N.of_nat i))
    /\ (forall n1 n2 pf1 pf2,
          n1 <> n2 ->
          ProxyForwards (registerAll regs (NewProxy h)) !! n1 = Some pf1 ->
          ProxyForwards (registerAll regs (NewProxy h)) !! n2 = Some pf2 ->
          allocation pf1 <> allocation pf2).
Proof.
  intros h regs Hnd. split; [reflexivity |]. split; [reflexivity |]. split.
  - intros i name pf Hi.
    exists (allocate (registerAll (take i regs) (NewProxy h)) pf).
    split; [now apply registerAll_lookup |].
    destruct (registerAll_NewProxy_cursors h (take i regs)) as [Hport Hip].
    assert (Hlen : length (take i regs) = i).
    { rewrite length_take. apply lookup_lt_Some in Hi. lia. }
    rewrite Hlen in Hport, Hip. cbn. unfold proxyIP. now rewrite Hport, Hip.
  - intros n1 n2 pf1 pf2 Hne H1 H2 Heq.
    destruct (registerAll_allocationInv regs (NewProxy h) (NewProxy_allocationInv h))
      as (_ & _ & _ & Hdist).
    apply (Hdist n1 n2 pf1 pf2 Hne H1 H2).
    unfold allocation in Heq. congruence.
Qed.

Lemma threeForwards_NoDup : NoDup threeForwards.*1.
Proof. apply (bool_decide_unpack _). vm_compute. exact I. Defined.

Lemma allocation_starts_9400_and_steps_by_one_witness :
  NoDup threeForwards.*1
  /\ allocation <$> ProxyForwards (registerAll threeForwards (NewProxy NewClient)) !! "auth"
     = Some ("127.1.2.1", "9400")
  /\ allocation <$> ProxyForwards (registerAll threeForwards (NewProxy NewClient)) !! "billing"
     = Some ("127.1.2.2", "9401")
  /\ allocation <$> ProxyForwards (registerAll threeForwards (NewProxy NewClient)) !! "cart"
     = Some ("127.1.2.3", "9402").
Proof.
  split; [exact threeForwards_NoDup |].
  destruct (allocation_starts_9400_and_steps_by_one NewClient threeForwards
              threeForwards_NoDup) as (_ & _ & Hith & _).
  split; [| split].
  - destruct (Hith 0%nat _ _ eq_refl) as (pf' & -> & Hport & Hip).
    cbn. unfold allocation. rewrite Hport, Hip. reflexivity.
  - destruct (Hith 1%nat _ _ eq_refl) as (pf' & -> & Hport & Hip).
    cbn. unfold allocation. rewrite Hport, Hip. reflexivity.
  - destruct (Hith 2%nat _ _ eq_refl) as (pf' & -> & Hport & Hip).
    cbn. unfold allocation. rewrite Hport, Hip. reflexivity.
Defined.

(** ** The hostfile entries of live forwards *)

Lemma filter_eq_absent {A} `{EqDecision A} (e : A) (l : list A) :
  e ∉ l -> filter (fun x => x = e) l = [].
Proof.
  induction l as [| x l IH]; intros Hnot; [reflexivity |].
  rewrite filter_cons. apply not_elem_of_cons in Hnot as [Hne Hnot].
  case_decide; [congruence | now apply IH].
Qed.

Lemma filter_eq_once {A} `{EqDecision A} (e : A) (l : list A) :
  NoDup l -> e ∈ l -> length (filter (fun x => x = e) l) = 1%nat.
Proof.
  induction 1 as [| x l Hx Hnd IH]; intros Hin.
  - now apply elem_of_nil in Hin.
  - rewrite filter_cons. case_decide as Heq.
    + subst x. cbn. now rewrite filter_eq_absent.
    + apply elem_of_cons in Hin as [-> | Hin]; [congruence | now apply IH].
Qed.

Lemma AddHost_region_NoDup ip host h :
  NoDup (region h) -> NoDup (region (AddHost ip host h)).
Proof.
  intros Hnd. cbn. case_decide; [exact Hnd |].
  apply NoDup_app. repeat split; [exact Hnd | | apply NoDup_singleton].
  intros x Hx ->%list_elem_of_singleton. contradiction.
Qed.

Lemma AddHost_region_mono ip host h e :
  e ∈ region h -> e ∈ region (AddHost ip host h).
Proof.
  intros He. cbn. case_decide; [exact He |]. apply elem_of_app. now left.
Qed.

Lemma AddHost_region_new ip host h : (ip, host) ∈ region (AddHost ip host h).
Proof.
  cbn. case_decide; [assumption |]. apply elem_of_app. right. left.
Qed.

Lemma AddHost_calls ip host h : calls (AddHost ip host h) = (calls h ++ [(ip, host)])%list.
Proof. reflexivity. Qed.

Lemma NewProxy_hostfileInv : hostfileInv (NewProxy NewClient).
Proof.
  split; [apply NoDup_nil_2 |]. intros n pf. cbn. now rewrite lookup_empty.
Qed.

Lemma AddProxyForward_hostfileInv name pf p :
  hostfileInv p -> hostfileInv (AddProxyForward name pf p).
Proof.
  intros [Hnd Hlive]. split.
  - now apply AddHost_region_NoDup.
  - intros n q. cbn [ProxyForwards AddProxyForward hostfile].
    rewrite lookup_insert. case_decide.
    + intros [= <-]. apply AddHost_region_new.
    + intros Hq. apply AddHost_region_mono. now apply (Hlive n).
Qed.

Lemma registerAll_hostfileInv regs : forall p,
  hostfileInv p -> hostfileInv (registerAll regs p).
Proof.
  induction regs as [| r regs IH]; intros p Hp; [exact Hp |].
  apply (IH (AddProxyForward r.1 r.2 p)). now apply AddProxyForward_hostfileInv.
Qed.

Lemma hostfileInv_one_entry p n pf :
  hostfileInv p -> ProxyForwards p !! n = Some pf ->
  hostEntries (ProxyIP pf) (TargetHostname pf) (hostfile p) = 1%nat.
Proof.
  intros [Hnd Hlive] Hpf. unfold hostEntries.
  apply filter_eq_once; [exact Hnd | now apply (Hlive n)].
Qed.

(** C7. In every state reached from a fresh proxy, a call of
    [AddProxyForward] registers the forward under its name, invokes the
    hostfile editor exactly once, with the allocated proxy_ip and the
    forward's target hostname, advances the port cursor and the ip cursor
    by one, and leaves every live forward with exactly one hostfile entry
    mapping its target hostname to its proxy_ip. *)
Theorem AddProxyForward_registers_edits_hostfile_once :
  forall (regs : list (string * ProxyForward)) (name : string) (pf : ProxyForward),
    let p := registerAll regs (NewProxy NewClient) in
    let p' := AddProxyForward name pf p in
    ProxyForwards p' !! name = Some (allocate p pf)
    /\ TargetHostname (allocate p pf) = TargetHostname pf
    /\ ProxyIP (allocate p pf) = proxyIP (ipLastByte p)
    /\ calls (hostfile p') = (calls (hostfile p) ++ [(proxyIP (ipLastByte p), TargetHostname pf)])%list
    /\ Atoi (latestPort p') = (Atoi (latestPort p) + 1)%N
    /\ ipLastByte p' = (ipLastByte p + 1)%N
    /\ (forall n q, ProxyForwards p' !! n = Some q ->
          hostEntries (ProxyIP q) (TargetHostname q) (hostfile p') = 1%nat).
Proof.
  intros regs name pf p p'.
  split; [apply lookup_insert_eq |].
  split; [reflexivity |]. split; [reflexivity |]. split; [reflexivity |].
  split; [cbn; apply Atoi_Itoa |]. split; [reflexivity |].
  intros n q Hq. apply (hostfileInv_one_entry p' n q); [| exact Hq].
  apply AddProxyForward_hostfileInv, registerAll_hostfileInv, NewProxy_hostfileInv.
Qed.

(** ** Determinism *)




(** ** Registering a name again *)

Lemma registerAll_dom regs : forall p,
  dom (ProxyForwards (registerAll regs p))
    = dom (ProxyForwards p) ∪ (list_to_set regs.*1 : gset string).
Proof.
  induction regs as [| r regs IH]; intros p.
  - cbn. now rewrite (right_id_L ∅ (∪)).
  - change (registerAll (r :: regs) p) with (registerAll regs (AddProxyForward r.1 r.2 p)).
    rewrite IH. cbn [ProxyForwards AddProxyForward]. rewrite dom_insert_L.
    rewrite fmap_cons, list_to_set_cons.
    now rewrite (comm_L (∪) {[r.1]} (dom _)), <- (assoc_L (∪)).
Qed.

(** C9. Registering a forward under a name that is already registered
    leaves the number of entries of the name-keyed map unchanged (the map
    has one entry per distinct name), yet the port cursor advances by one
    on that call as on every call. *)
Theorem reregistering_name_keeps_size_advances_port :
  forall (h : Hostfile) (regs : list (string * ProxyForward))
         (name : string) (pf : ProxyForward),
    name ∈ regs.*1 ->
    let p := registerAll regs (NewProxy h) in
    size (ProxyForwards (AddProxyForward name pf p)) = size (ProxyForwards p)
    /\ size (ProxyForwards p) = size (list_to_set regs.*1 : gset string)
    /\ latestPort p = Itoa (9400 + N.of_nat (length regs))
    /\ latestPort (AddProxyForward name pf p) = Itoa (9400 + N.of_nat (length regs) + 1).
Proof.
  intros h regs name pf Hin p.
  assert (Hdom : dom (ProxyForwards p) = (list_to_set regs.*1 : gset string)).
  { unfold p. rewrite registerAll_dom. cbn. rewrite dom_empty_L.
    now rewrite (left_id_L ∅ (∪)). }
  destruct (registerAll_NewProxy_cursors h regs) as [Hport _]. fold p in Hport.
  split; [| split; [| split]].
  - cbn [ProxyForwards AddProxyForward]. apply map_size_insert_Some.
    apply elem_of_dom. rewrite Hdom. now apply elem_of_list_to_set.
  - rewrite <- Hdom. symmetry. apply size_dom.
  - exact Hport.
  - cbn. now rewrite Hport, Atoi_Itoa.
Qed.

Lemma reregistering_name_keeps_size_advances_port_witness :
  "test-2" ∈ (take 2 testCases).*1
  /\ size (ProxyForwards (registerAll (take 2 testCases) (NewProxy NewClient))) = 2%nat
  /\ size (ProxyForwards (registerAll testCases (NewProxy NewClient))) = 2%nat
  /\ latestPort (registerAll testCases (NewProxy NewClient)) = "9403".
Proof.
  assert (Hin : "test-2" ∈ (take 2 testCases).*1) by (cbn; right; left).
  split; [exact Hin |].
  destruct (reregistering_name_keeps_size_advances_port NewClient (take 2 testCases)
              "test-2" (NewProxyForward "test-2" "hostname3.svc.local" "" "8081" "8082") Hin)
    as (Hsame & Hsize & _ & Hport).
  split; [rewrite Hsize; reflexivity |].
  split; [etransitivity; [exact Hsame | rewrite Hsize; reflexivity] | exact Hport].
Defined.

(** ** The tests of pkg/proxy/proxy_test.go *)

Example TestNewProxy :
  size (ProxyForwards (NewProxy NewClient)) = 0%nat
  /\ latestPort (NewProxy NewClient) = "9400"
  /\ ipLastByte (NewProxy NewClient) = 1%N.
Proof. repeat split. Qed.

Example TestAddProxyForward :
  let pf := NewProxyForward "test" "hostname.svc.local" "" "8080" "8080" in
  let p := AddProxyForward "test" pf (NewProxy NewClient) in
  size (ProxyForwards p) = 1%nat /\ latestPort p = "9401" /\ ipLastByte p = 2%N
  /\ calls (hostfile p) = [("127.1.2.1", "hostname.svc.local")].
Proof. repeat split. Qed.

Example TestAddProxyForwardWhenMultiple :
  let p := registerAll testCases (NewProxy NewClient) in
  size (ProxyForwards p) = 2%nat /\ latestPort p = "9403"
  /\ (calls (hostfile p)).*2
     = ["hostname.svc.local"; "hostname2.svc.local"; "hostname3.svc.local"].
Proof. repeat split. Qed.

End ProxyProperties.

(* ===================================================================== *)
(** * Properties of the retry helper                                      *)
(* ===================================================================== *)

Section RestProperties.
Import Rest.
Local Open Scope Z_scope.

Variable retryAfterSeconds : Response -> Z * bool.

Lemma wrap64_in_range (z : Z) : - 2 ^ 63 <= z < 2 ^ 63 -> wrap64 z = z.
Proof. intros Hz. unfold wrap64. rewrite Z.mod_small; lia. Qed.

(** [SetMaxRetries] never stores a negative ceiling. *)
Lemma SetMaxRetries_nonneg (n : Z) (r : withRetry) : 0 <= maxRetries (SetMaxRetries n r).
Proof. unfold SetMaxRetries. cbn. destruct (Z.ltb_spec n 0); lia. Qed.

(** The response handed to [checkWait] is never nil: the branch of
    [IsNextRetry] that guards against it is dead. *)
Lemma IsNextRetry_resp_set (hreq : HttpRequest) (resp : option Response)
    (err : option error) (f : option IsRetryableErrorFunc) :
  bool_decide (resp = None) && bool_decide (err = None) = false ->
  let errIsRetryable :=
    match f, err with
    | Some f, Some e => IsErrorRetryable f hreq e
    | _, _ => false
    end in
  bool_decide (err <> None) && negb errIsRetryable = false ->
  (if errIsRetryable then Some retryAfterResponse else resp) <> None.
Proof.
  intros Hbad errIsRetryable Herr.
  destruct errIsRetryable eqn:E; [discriminate |].
  destruct err as [e |], resp as [rs |]; cbn in *; try discriminate.
  all: destruct f; cbn in *; try discriminate; congruence.
Qed.

(** What a call does to the receiver: the ceiling is kept, the attempt
    count is kept on bad input and incremented otherwise. *)
Lemma IsNextRetry_receiver r ctx restReq httpReq resp err f :
  let r' := fst (IsNextRetry retryAfterSeconds r ctx restReq httpReq resp err f) in
  maxRetries r' = maxRetries r
  /\ (attempts r' = attempts r \/ attempts r' = wrap64 (attempts r + 1)).
Proof.
  unfold IsNextRetry.
  destruct httpReq as [hreq |]; [| cbn; auto].
  destruct (bool_decide (resp = None) && bool_decide (err = None)); [cbn; auto |].
  destruct (maxRetries r <? wrap64 (attempts r + 1)); [cbn; auto |].
  match goal with |- context [if ?b then (_, false) else _] => destruct b end; [cbn; auto |].
  match goal with |- context [match ?o with Some _ => _ | None => _ end] => destruct o end;
    [| cbn; auto].
  destruct (checkWait retryAfterSeconds r0) as [seconds wait].
  destruct wait; cbn; [| auto].
  destruct (prepareForNextRetry ctx restReq); cbn; auto.
Qed.

(** A call that answers true has incremented the attempt count to a value
    within the ceiling. *)
Lemma IsNextRetry_true r ctx restReq httpReq resp err f :
  snd (IsNextRetry retryAfterSeconds r ctx restReq httpReq resp err f) = true ->
  attempts (fst (IsNextRetry retryAfterSeconds r ctx restReq httpReq resp err f))
    = wrap64 (attempts r + 1)
  /\ wrap64 (attempts r + 1) <= maxRetries r.
Proof.
  unfold IsNextRetry.
  destruct httpReq as [hreq |]; [| discriminate].
  destruct (bool_decide (resp = None) && bool_decide (err = None)); [discriminate |].
  destruct (Z.ltb_spec (maxRetries r) (wrap64 (attempts r + 1))); [discriminate |].
  match goal with |- context [if ?b then (_, false) else _] => destruct b end; [discriminate |].
  match goal with |- context [match ?o with Some _ => _ | None => _ end] => destruct o end;
    [| discriminate].
  destruct (checkWait retryAfterSeconds r0) as [seconds wait].
  destruct wait; cbn; [| discriminate].
  destruct (prepareForNextRetry ctx restReq); cbn; [discriminate |].
  intros _. split; [reflexivity | lia].
Qed.


(** Over any sequence of calls the number of retries granted is at most
    what is left of the ceiling. *)
Lemma callSequence_retries_bounded (cs : list Call) : forall r,
  0 <= attempts r -> attempts r + Z.of_nat (length cs) < 2 ^ 63 ->
  countTrue (snd (callSequence retryAfterSeconds r cs)) <= Z.max 0 (maxRetries r - attempts r).
Proof.
  induction cs as [| c cs IH]; intros r Hlo Hhi.
  - apply Z.le_max_l.
  - cbn [callSequence]. unfold callIsNextRetry.
    pose proof (IsNextRetry_receiver r (callCtx c) (callRestReq c) (callHttpReq c)
                  (callResp c) (callErr c) (callF c)) as Hrecv.
    pose proof (IsNextRetry_true r (callCtx c) (callRestReq c) (callHttpReq c)
                  (callResp c) (callErr c) (callF c)) as Htrue.
    destruct (IsNextRetry retryAfterSeconds r (callCtx c) (callRestReq c) (callHttpReq c)
                (callResp c) (callErr c) (callF c)) as [r' b].
    cbn [fst snd] in Hrecv, Htrue. destruct Hrecv as [Hmax Hatt].
    cbn [length] in Hhi. rewrite Nat2Z.inj_succ in Hhi.
    rewrite (wrap64_in_range (attempts r + 1)) in Hatt, Htrue by lia.
    specialize (IH r').
    destruct (callSequence retryAfterSeconds r' cs) as [r'' bs]. cbn [snd] in *.
    unfold countTrue in *. rewrite filter_cons.
    destruct b.
    + destruct (Htrue eq_refl) as [Ha Hle].
      case_decide; [| congruence]. cbn [length]. rewrite Nat2Z.inj_succ.
      assert (countOk : Z.of_nat (length (filter (fun b => b = true) bs))
                        <= Z.max 0 (maxRetries r' - attempts r')) by (apply IH; lia).
      lia.
    + case_decide; [congruence |].
      assert (countOk : Z.of_nat (length (filter (fun b => b = true) bs))
                        <= Z.max 0 (maxRetries r' - attempts r')) by (apply IH; lia).
      lia.
Qed.

Lemma countTrue_zero_all_false (bs : list bool) :
  countTrue bs <= 0 -> Forall (fun b => b = false) bs.
Proof.
  unfold countTrue. induction bs as [| b bs IH]; intros Hc; [constructor |].
  rewrite filter_cons in Hc. destruct b.
  - case_decide; [| congruence]. cbn [length] in Hc. lia.
  - case_decide; [congruence |]. constructor; [reflexivity | now apply IH].
Qed.

(** The results of a sequence are those of its calls. *)
Lemma callSequence_callLog (cs : list Call) : forall r,
  snd (callSequence retryAfterSeconds r cs) = (fun e => e.2) <$> callLog retryAfterSeconds r cs.
Proof.
  induction cs as [| c cs IH]; intros r; [reflexivity |].
  cbn [callSequence callLog]. destruct (callIsNextRetry retryAfterSeconds r c) as [r' b].
  specialize (IH r'). destruct (callSequence retryAfterSeconds r' cs) as [r'' bs].
  cbn in *. now rewrite IH.
Qed.

(** C10. [SetMaxRetries] with a negative argument sets the ceiling to 0.
    In whatever state the receiver is, and so at every call of every
    sequence of calls, [IsNextRetry] returns false when the incremented
    attempt count exceeds [maxRetries], and returns false, leaving the
    receiver as it was, when the HTTP request is nil or both response and
    error are nil.  Over a sequence of calls the retries granted never
    exceed what is left of the ceiling; with [maxRetries] 0 no call returns
    true.  (The last two statements are for sequences shorter than the 2^63
    calls the 64-bit attempt counter can count.) *)
Theorem IsNextRetry_never_beyond_ceiling :
  (forall (n : Z) (r : withRetry), n < 0 -> maxRetries (SetMaxRetries n r) = 0)
  /\ (forall r ctx restReq httpReq resp err f,
        maxRetries r < wrap64 (attempts r + 1) ->
        snd (IsNextRetry retryAfterSeconds r ctx restReq httpReq resp err f) = false)
  /\ (forall r cs,
        Forall (fun e : withRetry * Call * bool =>
                  maxRetries e.1.1 < wrap64 (attempts e.1.1 + 1) -> e.2 = false)
          (callLog retryAfterSeconds r cs))
  /\ (forall r ctx restReq httpReq resp err f,
        httpReq = None \/ (resp = None /\ err = None) ->
        IsNextRetry retryAfterSeconds r ctx restReq httpReq resp err f = (r, false))
  /\ (forall r cs,
        0 <= attempts r -> attempts r + Z.of_nat (length cs) < 2 ^ 63 ->
        countTrue (snd (callSequence retryAfterSeconds r cs))
          <= Z.max 0 (maxRetries r - attempts r))
  /\ (forall r cs,
        maxRetries r = 0 ->
        0 <= attempts r -> attempts r + Z.of_nat (length cs) < 2 ^ 63 ->
        Forall (fun b => b = false) (snd (callSequence retryAfterSeconds r cs))).
Proof.
  assert (Hcall : forall r ctx restReq httpReq resp err f,
             maxRetries r < wrap64 (attempts r + 1) ->
             snd (IsNextRetry retryAfterSeconds r ctx restReq httpReq resp err f) = false).
  { intros r ctx restReq httpReq resp err f Hover.
    destruct (snd (IsNextRetry retryAfterSeconds r ctx restReq httpReq resp err f)) eqn:E;
      [| reflexivity].
    apply IsNextRetry_true in E. lia. }
  split; [| split; [| split; [| split; [| split]]]].
  - intros n r Hn. unfold SetMaxRetries. cbn.
    destruct (Z.ltb_spec n 0); [reflexivity | lia].
  - exact Hcall.
  - intros r cs. revert r. induction cs as [| c cs IH]; intros r; [constructor |].
    cbn [callLog]. pose proof (Hcall r (callCtx c) (callRestReq c) (callHttpReq c)
                                 (callResp c) (callErr c) (callF c)) as Hc.
    fold (callIsNextRetry retryAfterSeconds r c) in Hc.
    destruct (callIsNextRetry retryAfterSeconds r c) as [r' b].
    constructor; [exact Hc | apply IH].
  - intros r ctx restReq httpReq resp err f [-> | [-> ->]]; [reflexivity |].
    unfold IsNextRetry. destruct httpReq; reflexivity.
  - intros r cs. apply callSequence_retries_bounded.
  - intros r cs Hzero Hlo Hhi. apply countTrue_zero_all_false.
    pose proof (callSequence_retries_bounded cs r Hlo Hhi) as Hb.
    rewrite Hzero in Hb. lia.
Qed.

End RestProperties.

Section RestExamples.
Import Rest.
Local Open Scope Z_scope.

Example retries_up_to_ceiling :
  snd (callSequence sampleRetryAfterSeconds (SetMaxRetries 2 freshRetry)
         [retryableCall; retryableCall; retryableCall; retryableCall])
  = [true; true; false; false].
Proof. reflexivity. Qed.

Example retryable_error_retried :
  snd (IsNextRetry sampleRetryAfterSeconds (SetMaxRetries 1 freshRetry)
         {| Err := None |} {| body := BodySeeker false |}
         (Some {| Method := "GET"; URL := "/api" |}) None (Some "connection reset"%string)
         (Some (fun _ _ => true)))
  = true.
Proof. reflexivity. Qed.

Lemma IsNextRetry_never_beyond_ceiling_witness :
  maxRetries (SetMaxRetries (-3) freshRetry) = 0
  /\ snd (callIsNextRetry sampleRetryAfterSeconds (SetMaxRetries (-3) freshRetry) retryableCall)
     = false
  /\ callIsNextRetry sampleRetryAfterSeconds (SetMaxRetries 5 freshRetry) nilRequestCall
     = (SetMaxRetries 5 freshRetry, false)
  /\ Forall (fun b => b = false)
       (snd (callSequence sampleRetryAfterSeconds (SetMaxRetries (-3) freshRetry)
               [retryableCall; nilRequestCall; retryableCall])).
Proof.
  destruct (IsNextRetry_never_beyond_ceiling sampleRetryAfterSeconds)
    as (Hset & Hover & _ & Hbad & _ & Hzero).
  split; [apply Hset; lia |].
  split; [apply Hover; vm_compute; reflexivity |].
  split; [apply Hbad; left; reflexivity |].
  apply Hzero; [reflexivity | cbn; lia | vm_compute; reflexivity].
Defined.

End RestExamples.

(* ===================================================================== *)
(** * Properties of the runner's environment composition                  *)
(* ===================================================================== *)

Section RunProperties.
Import Run.

Lemma overlayPairs_lookup (k : string) (kvs : list (string * string)) :
  forall e : gmap string string,
    overlayPairs kvs e !! k =
      match lastValue k kvs with
      | Some v => Some v
      | None => e !! k
      end.
Proof.
  induction kvs as [| kv kvs IH]; intros e; [reflexivity |].
  change (overlayPairs (kv :: kvs) e) with (overlayPairs kvs (<[kv.1 := kv.2]> e)).
  rewrite IH. cbn [lastValue]. destruct (lastValue k kvs); [reflexivity |].
  rewrite lookup_insert. now case_decide.
Qed.

Lemma lastValue_key (k : string) (kvs : list (string * string)) :
  k ∈ kvs.*1 <-> is_Some (lastValue k kvs).
Proof.
  induction kvs as [| kv kvs IH]; cbn.
  - split; [intros H; now apply elem_of_nil in H | intros [v H]; discriminate].
  - rewrite elem_of_cons, IH. destruct (lastValue k kvs) as [v |].
    + split; [eauto | intros _; right; eauto].
    + case_decide; split; eauto.
      intros [Heq | Hsome]; [congruence | exact Hsome].
Qed.

(** A key that is no injected variable: [env] first, then the [env_file],
    then the inherited environment. *)
Lemma composeEnv_layers host p app (k : string) :
  k ∉ (proxyEnvPairs p).*1 ->
  composeEnv host p app !! k =
    match Config.Env app !! k with
    | Some v => Some v
    | None =>
        match lastValue k (envFilePairs host app) with
        | Some v => Some v
        | None => environ host !! k
        end
    end.
Proof.
  intros Hk. unfold composeEnv, overlayMap. rewrite overlayPairs_lookup.
  destruct (lastValue k (proxyEnvPairs p)) as [v |] eqn:E.
  - exfalso. apply Hk, lastValue_key. eauto.
  - rewrite lookup_union, overlayPairs_lookup.
    destruct (Config.Env app !! k), (lastValue k (envFilePairs host app)),
      (environ host !! k); reflexivity.
Qed.

(** Every key of the [env_file] and of [env] is set in the child. *)
Lemma composeEnv_contains host p app (k : string) :
  k ∈ (envFilePairs host app).*1 \/ is_Some (Config.Env app !! k) ->
  is_Some (composeEnv host p app !! k).
Proof.
  intros Hk. unfold composeEnv, overlayMap. rewrite overlayPairs_lookup.
  destruct (lastValue k (proxyEnvPairs p)); [eauto |].
  rewrite lookup_union, overlayPairs_lookup.
  destruct Hk as [Hk%lastValue_key | Hk].
  - destruct Hk as [v ->]. destruct (Config.Env app !! k); cbn; eauto.
  - destruct Hk as [v ->]. destruct (lastValue k _), (environ host !! k); cbn; eauto.
Qed.

Example scenario_env_composition :
  let E := composeEnv scenarioHost (Proxy.NewProxy Proxy.NewClient)
             (scenarioApp {["MY_VAR" := "value"]}) in
  E !! "MY_VAR" = Some "value" /\ E !! "F_VAR" = Some "f" /\ E !! "HOME" = Some "/home/dev".
Proof. vm_compute. repeat split. Qed.

(** The corner the layers lemma leaves out: with a live forward named
    [f_var] the injected variable replaces the application's own. *)
Example injected_variable_replaces_application_value :
  let pf := Proxy.NewProxyForward "f_var" "db.prod" "" "5432" "5433" in
  let p := Proxy.AddProxyForward "f_var" pf (Proxy.NewProxy Proxy.NewClient) in
  composeEnv scenarioHost p (scenarioApp {["PROXY_FORWARD_F_VAR" := "mine"]})
    !! "PROXY_FORWARD_F_VAR" = Some "127.1.2.1:9400".
Proof. vm_compute. reflexivity. Qed.

End RunProperties.

(* ===================================================================== *)
(** * Further properties of package [config] and of the lifecycle root     *)
(* ===================================================================== *)

Section MoreConfigProperties.

Import Config.




(** X2. [GetPath] departs from the configured path only for the executable
    "go" with a path that [os.Stat] reports as not existing; any other
    outcome of [os.Stat] (the path exists, or the call fails for another
    reason) keeps the path. *)
Theorem GetPath_rewrites_only_missing_go_paths :
  forall (os : OS) (a : Application),
    GetPath os a <> Path a ->
    Executable a = "go" /\ Stat os (Path a) = StatNotExist
    /\ GetPath os a = Getenv os "GOPATH" +:+ "/src/" +:+ Path a.
Proof.
  intros os a Hne. unfold GetPath, ExecutableGo, SprintfSrc in *.
  case_decide as Hexe; [| contradiction].
  destruct (Stat os (Path a)); cbn in *; try contradiction.
  repeat split; assumption.
Qed.

Lemma GetPath_rewrites_only_missing_go_paths_witness :
  Executable (sampleApp "go" "github.com/acme/api") = "go"
  /\ Stat sampleOS (Path (sampleApp "go" "github.com/acme/api")) = StatNotExist
  /\ GetPath sampleOS (sampleApp "go" "github.com/acme/api")
     = "/home/dev/go/src/github.com/acme/api".
Proof.
  apply (GetPath_rewrites_only_missing_go_paths sampleOS (sampleApp "go" "github.com/acme/api")).
  vm_compute. discriminate.
Defined.

End MoreConfigProperties.

Section MoreMainProperties.

Import Main.

(** X3. In every execution either no component is stopped at all, or the
    trace ends with the whole of [stopAll] (the four Stop calls after its
    message), nothing was stopped before, and the process exits with
    status 0: a shutdown is never partial and nothing runs after it. *)
Theorem shutdown_is_whole_and_final :
  forall w : World,
    stops (traceOf w) = []
    \/ (lastEvents 5 (traceOf w) = stopAllSteps
        /\ stops (butLast 5 (traceOf w)) = []
        /\ snd (execute w) = Exited 0).
Proof.
  intros [d eu fu cl pr pn hn sk ml sg cf es].
  explore_world; first [left; reflexivity | right; repeat split; reflexivity].
Qed.

(** X4. In every shutdown run the layout was initialised and the watcher
    goroutine started before the first Stop call: [stopAll] is not reached
    before [runProject] has created the components it stops. *)
Theorem components_started_before_stopped :
  forall w : World,
    shutdownRun w = true ->
    before LayoutInit WatcherStop (traceOf w) = true
    /\ before GoWatcherWatch WatcherStop (traceOf w) = true.
Proof.
  intros [d eu fu cl pr pn hn sk ml sg cf es].
  explore_world; intros H; try discriminate H; split; reflexivity.
Qed.

Lemma components_started_before_stopped_witness :
  before LayoutInit WatcherStop (traceOf uiQuitWorld) = true
  /\ before GoWatcherWatch WatcherStop (traceOf uiQuitWorld) = true.
Proof. exact (components_started_before_stopped uiQuitWorld eq_refl). Defined.

(** X5. When the root command cannot set the project up (config.Load
    fails, the prompt is cancelled or fails, the project is not found or
    the hosts file cannot be opened), the watcher is never started, no
    component is stopped and the process ends at once, by returning, by
    [os.Exit(0)] or by a panic. *)
Theorem failed_setup_starts_nothing :
  forall w : World,
    dispatch w = DispatchRoot ->
    configLoad w = false \/ prompt w <> PromptChoice
      \/ projectByName w = false \/ hostfileNewClient w = false ->
    occurs GoWatcherWatch (traceOf w) = false
    /\ stops (traceOf w) = []
    /\ (snd (execute w) = Exited 0 \/ snd (execute w) = Panicked).
Proof.
  intros [d eu fu cl pr pn hn sk ml sg cf es]. cbn [dispatch configLoad prompt
    projectByName hostfileNewClient].
  intros -> Hfail.
  destruct cl; [| vm_compute; auto].
  destruct pr; [| vm_compute; auto | vm_compute; auto].
  destruct pn; [| vm_compute; auto].
  destruct hn; [| vm_compute; auto].
  exfalso. intuition congruence.
Qed.

Lemma failed_setup_starts_nothing_witness :
  occurs GoWatcherWatch (traceOf hostfileErrorWorld) = false
  /\ stops (traceOf hostfileErrorWorld) = []
  /\ (snd (execute hostfileErrorWorld) = Exited 0
      \/ snd (execute hostfileErrorWorld) = Panicked).
Proof.
  apply (failed_setup_starts_nothing hostfileErrorWorld); [reflexivity |].
  right. right. right. reflexivity.
Defined.

(** X6. With the UI enabled, a refused key binding makes [runProject]
    panic after the watcher goroutine was started: the deferred GUI close
    runs, but no component is stopped. *)
Theorem keybinding_failure_panics_without_shutdown :
  forall w : World,
    dispatch w = DispatchRoot -> configLoad w = true -> prompt w = PromptChoice ->
    projectByName w = true -> hostfileNewClient w = true ->
    envUI w = true \/ flagUI w = true ->
    setKeybinding w = false ->
    snd (execute w) = Panicked
    /\ occurs GoWatcherWatch (traceOf w) = true
    /\ occurs GuiClose (traceOf w) = true
    /\ stops (traceOf w) = [].
Proof.
  intros [d eu fu cl pr pn hn sk ml sg cf es]. cbn [dispatch configLoad prompt
    projectByName hostfileNewClient envUI flagUI setKeybinding].
  intros -> -> -> -> -> Hui ->.
  destruct eu; [vm_compute; auto |].
  destruct fu; [vm_compute; auto |].
  exfalso. intuition congruence.
Qed.

Lemma keybinding_failure_panics_without_shutdown_witness :
  snd (execute keybindingErrorWorld) = Panicked
  /\ occurs GoWatcherWatch (traceOf keybindingErrorWorld) = true
  /\ occurs GuiClose (traceOf keybindingErrorWorld) = true
  /\ stops (traceOf keybindingErrorWorld) = [].
Proof.
  apply (keybinding_failure_panics_without_shutdown keybindingErrorWorld);
    try reflexivity.
  right. reflexivity.
Defined.

(** X7. When MONDAY_ENABLE_UI is set, the [--ui] flag is not read: the
    execution is the same whatever the flag says. *)
Theorem env_ui_overrides_flag :
  forall (w : World) (b : bool),
    envUI w = true -> execute (withFlagUI b w) = execute w.
Proof.
  intros [d eu fu cl pr pn hn sk ml sg cf es] b. cbn [envUI]. intros ->.
  unfold withFlagUI, execute, main, rootRun. cbn [dispatch envUI flagUI configLoad prompt
    projectByName hostfileNewClient setKeybinding mainLoop signal configFileExists
    editorStarts]. reflexivity.
Qed.

Lemma env_ui_overrides_flag_witness :
  execute (withFlagUI true uiQuitWorld) = execute uiQuitWorld
  /\ execute (withFlagUI false uiQuitWorld) = execute uiQuitWorld.
Proof.
  split.
  - exact (env_ui_overrides_flag uiQuitWorld true eq_refl).
  - exact (env_ui_overrides_flag uiQuitWorld false eq_refl).
Defined.

(** X8. The GUI is closed at most once in an execution, and not at all
    when the shutdown follows an error of the UI main loop ([stopAll] exits
    before the deferred close can run) or when the UI is off. *)
Theorem gui_closed_at_most_once_never_on_loop_error :
  forall w : World,
    (occurrences GuiClose (traceOf w) <= 1)%nat
    /\ (occurs (Print MsgMainLoopError) (traceOf w) = true ->
        occurs GuiClose (traceOf w) = false)
    /\ (envUI w = false -> flagUI w = false -> occurs GuiClose (traceOf w) = false).
Proof.
  intros [d eu fu cl pr pn hn sk ml sg cf es]. cbn [envUI flagUI].
  explore_world; repeat split; intros; try reflexivity; try discriminate; lia.
Qed.

Lemma gui_closed_at_most_once_never_on_loop_error_witness :
  (occurrences GuiClose (traceOf uiQuitWorld) <= 1)%nat
  /\ occurs (Print MsgMainLoopError) (traceOf mainLoopErrorWorld) = true
  /\ occurs GuiClose (traceOf mainLoopErrorWorld) = false
  /\ occurs GuiClose (traceOf interruptWorld) = false.
Proof.
  split; [exact (proj1 (gui_closed_at_most_once_never_on_loop_error uiQuitWorld)) |].
  split; [reflexivity |].
  split.
  - exact (proj1 (proj2 (gui_closed_at_most_once_never_on_loop_error mainLoopErrorWorld))
             eq_refl).
  - exact (proj2 (proj2 (gui_closed_at_most_once_never_on_loop_error interruptWorld))
             eq_refl eq_refl).
Defined.

(** X9. Once the watcher goroutine is started, the process exits with
    status 0 only through [stopAll]: no normal exit leaves the started
    components unstopped. *)
Theorem exit_after_start_goes_through_stopAll :
  forall w : World,
    occurs GoWatcherWatch (traceOf w) = true ->
    snd (execute w) = Exited 0 ->
    shutdownRun w = true
    /\ stops (traceOf w) = [WatcherStop; ForwarderStop; ProxyStop; RunnerStop].
Proof.
  intros [d eu fu cl pr pn hn sk ml sg cf es].
  explore_world; intros H1 H2; try discriminate H1; try discriminate H2;
    split; reflexivity.
Qed.

Lemma exit_after_start_goes_through_stopAll_witness :
  shutdownRun mainLoopErrorWorld = true
  /\ stops (traceOf mainLoopErrorWorld) = [WatcherStop; ForwarderStop; ProxyStop; RunnerStop].
Proof.
  exact (exit_after_start_goes_through_stopAll mainLoopErrorWorld eq_refl eq_refl).
Defined.

End MoreMainProperties.

(* ===================================================================== *)
(** * Further properties of the retry helper                              *)
(* ===================================================================== *)

Section MoreRestProperties.

Import Rest.
Local Open Scope Z_scope.

Variable retryAfterSeconds : Response -> Z * bool.

(** X11. An error of the server takes precedence over its response: when
    the error is not retryable (no retryable-error function is given, or it
    answers false), [IsNextRetry] returns false whatever the response is,
    a 429 with a Retry-After header included. *)
Theorem nonretryable_error_never_retried :
  forall r ctx restReq httpReq resp (e : error) f,
    (forall g h, f = Some g -> httpReq = Some h -> IsErrorRetryable g h e = false) ->
    snd (IsNextRetry retryAfterSeconds r ctx restReq httpReq resp (Some e) f) = false.
Proof.
  intros r ctx restReq httpReq resp e f Hf. unfold IsNextRetry.
  destruct httpReq as [h |]; [| reflexivity].
  destruct (bool_decide (resp = None) && bool_decide (Some e = None)); [reflexivity |].
  destruct (maxRetries r <? wrap64 (attempts r + 1)); [reflexivity |].
  assert (Hnot : match f with Some g => IsErrorRetryable g h e | None => false end = false).
  { destruct f as [g |]; [now apply Hf | reflexivity]. }
  rewrite Hnot. reflexivity.
Qed.

(** X12. When the server's error is retryable, the response plays no part:
    the artificial Retry-After response stands in for it, so the result and
    the receiver afterwards are the same for any two responses. *)
Theorem retryable_error_ignores_response :
  forall r ctx restReq h resp1 resp2 (e : error) g,
    IsErrorRetryable g h e = true ->
    IsNextRetry retryAfterSeconds r ctx restReq (Some h) resp1 (Some e) (Some g)
    = IsNextRetry retryAfterSeconds r ctx restReq (Some h) resp2 (Some e) (Some g).
Proof.
  intros r ctx restReq h resp1 resp2 e g Hg. unfold IsNextRetry.
  rewrite !andb_false_r, Hg. reflexivity.
Qed.

(** X13. Without an error, only a 429 or a 5xx response can be retried: for
    any other status code [IsNextRetry] returns false, whatever Retry-After
    the response carries. *)
Theorem other_status_never_retried :
  forall r ctx restReq httpReq (rs : Response) f,
    StatusCode rs <> 429 -> StatusCode rs < 500 ->
    snd (IsNextRetry retryAfterSeconds r ctx restReq httpReq (Some rs) None f) = false.
Proof.
  intros r ctx restReq httpReq rs f H429 H500. unfold IsNextRetry.
  destruct httpReq as [h |]; [| reflexivity]. cbn [bool_decide andb].
  destruct (maxRetries r <? wrap64 (attempts r + 1)); [reflexivity |].
  assert (Hf : match f with Some _ => false | None => false end = false)
    by (destruct f; reflexivity).
  rewrite Hf. cbn. unfold checkWait, StatusTooManyRequests.
  destruct (Z.eqb_spec (StatusCode rs) 429); [contradiction |].
  destruct (Z.leb_spec 500 (StatusCode rs)); [lia |]. reflexivity.
Qed.

(** X14. Every call with a request and with a response or an error counts
    as an attempt, retried or not: the attempt counter goes up by one, the
    ceiling is kept, and the retry parameters record the new count. *)
Theorem wellformed_call_counts_attempt :
  forall r ctx restReq h resp err f,
    resp <> None \/ err <> None ->
    let r' := fst (IsNextRetry retryAfterSeconds r ctx restReq (Some h) resp err f) in
    attempts r' = wrap64 (attempts r + 1)
    /\ maxRetries r' = maxRetries r
    /\ exists ra, retryAfter r' = Some ra /\ Attempt ra = attempts r'.
Proof.
  intros r ctx restReq h resp err f Hwf. unfold IsNextRetry.
  assert (Hbad : bool_decide (resp = None) && bool_decide (err = None) = false).
  { destruct Hwf as [H | H]; [destruct resp | destruct err]; try contradiction;
      cbn; rewrite ?andb_false_r; reflexivity. }
  rewrite Hbad.
  destruct (maxRetries r <? wrap64 (attempts r + 1)); [cbn; eauto |].
  match goal with |- context [if ?b then (_, false) else _] => destruct b end; [cbn; eauto |].
  match goal with |- context [match ?o with Some _ => _ | None => _ end] => destruct o end;
    [| cbn; eauto].
  destruct (checkWait retryAfterSeconds r0) as [seconds wait].
  destruct wait; cbn; [| eauto].
  destruct (prepareForNextRetry ctx restReq); cbn; eauto.
Qed.

(** What a granted retry means, read off the code path to [return true]. *)
Lemma IsNextRetry_true_inv r ctx restReq httpReq resp err f :
  snd (IsNextRetry retryAfterSeconds r ctx restReq httpReq resp err f) = true ->
  exists rs seconds,
    effectiveResponse resp err = Some rs
    /\ checkWait retryAfterSeconds rs = (seconds, true)
    /\ prepareForNextRetry ctx restReq = None
    /\ fst (IsNextRetry retryAfterSeconds r ctx restReq httpReq resp err f)
       = {| maxRetries := maxRetries r; attempts := wrap64 (attempts r + 1);
            retryAfter := Some {| Wait := wrap64 (seconds * Second);
                                  Attempt := wrap64 (attempts r + 1);
                                  Reason := getRetryReason (wrap64 (attempts r + 1))
                                              seconds rs err |} |}.
Proof.
  unfold IsNextRetry, effectiveResponse.
  destruct httpReq as [h |]; [| (intros [=])].
  destruct (bool_decide (resp = None) && bool_decide (err = None)); [(intros [=]) |].
  destruct (maxRetries r <? wrap64 (attempts r + 1)); [(intros [=]) |].
  destruct err as [e |].
  - destruct f as [g |]; cbn -[checkWait wrap64 getRetryReason Z.mul]; [| (intros [=])].
    destruct (IsErrorRetryable g h e); cbn -[checkWait wrap64 getRetryReason Z.mul]; [| (intros [=])].
    destruct (checkWait retryAfterSeconds retryAfterResponse) as [seconds wait] eqn:Hcw.
    destruct wait; cbn -[checkWait wrap64 getRetryReason Z.mul]; [| (intros [=])].
    destruct (prepareForNextRetry ctx restReq); cbn -[checkWait wrap64 getRetryReason Z.mul]; [(intros [=]) |].
    intros _. exists retryAfterResponse, seconds. repeat split; assumption.
  - assert (Hf : match f with Some _ => false | None => false end = false)
      by (destruct f; reflexivity).
    rewrite Hf. cbn -[checkWait wrap64 getRetryReason Z.mul]. destruct resp as [rs |]; [| (intros [=])].
    destruct (checkWait retryAfterSeconds rs) as [seconds wait] eqn:Hcw.
    destruct wait; cbn -[checkWait wrap64 getRetryReason Z.mul]; [| (intros [=])].
    destruct (prepareForNextRetry ctx restReq); cbn -[checkWait wrap64 getRetryReason Z.mul]; [(intros [=]) |].
    intros _. exists rs, seconds. repeat split; assumption.
Qed.

(** X15. A retry is granted only on a live context, with a body that could
    be rewound, for a response (the server's, or the artificial one for an
    error) whose status is 429 or at least 500 and for which a Retry-After
    value was read; the wait recorded for the next attempt is that many
    seconds. *)
Theorem granted_retry_conditions :
  forall r ctx restReq httpReq resp err f,
    snd (IsNextRetry retryAfterSeconds r ctx restReq httpReq resp err f) = true ->
    Err ctx = None
    /\ body restReq <> BodySeeker true
    /\ exists rs seconds ra,
         effectiveResponse resp err = Some rs
         /\ (StatusCode rs = 429 \/ 500 <= StatusCode rs)
         /\ retryAfterSeconds rs = (seconds, true)
         /\ retryAfter (fst (IsNextRetry retryAfterSeconds r ctx restReq httpReq resp err f))
            = Some ra
         /\ Wait ra = wrap64 (seconds * Second).
Proof.
  intros r ctx restReq httpReq resp err f Htrue.
  destruct (IsNextRetry_true_inv _ _ _ _ _ _ _ Htrue)
    as (rs & seconds & Heff & Hwait & Hprep & Hstate).
  unfold prepareForNextRetry in Hprep.
  split; [destruct (Err ctx); [discriminate | reflexivity] |].
  split.
  { intros Hb. destruct (Err ctx); [discriminate |]. rewrite Hb in Hprep. discriminate. }
  exists rs, seconds. eexists. split; [exact Heff |].
  unfold checkWait, StatusTooManyRequests in Hwait.
  destruct (Z.eqb_spec (StatusCode rs) 429) as [H429 | H429];
    destruct (Z.leb_spec 500 (StatusCode rs)) as [H500 | H500]; cbn in Hwait;
    try discriminate; (split; [auto |]); (split; [exact Hwait |]);
    rewrite Hstate; cbn; split; reflexivity.
Qed.

(** The two keys this file reads, in the canonical form [Header.Get] looks
    them up by. *)
Lemma CanonicalMIMEHeaderKey_of_read_keys :
  CanonicalMIMEHeaderKey "Retry-After" = "Retry-After"%string
  /\ CanonicalMIMEHeaderKey "X-Kubernetes-PF-FlowSchema-UID"
     = "X-Kubernetes-Pf-Flowschema-Uid"%string.
Proof. split; reflexivity. Qed.

(** A key with a space, or with any byte outside the token bytes, is looked
    up as it is. *)
Lemma CanonicalMIMEHeaderKey_invalid (s : string) :
  validHeaderKey s = false -> CanonicalMIMEHeaderKey s = s.
Proof. intros H. unfold CanonicalMIMEHeaderKey. now rewrite H. Qed.

(** The flow-schema UID is read from the canonical key only. *)
Lemma HeaderGet_flow_schema_uid (uid : string) (h : list (string * list string)) :
  HeaderGet (("X-Kubernetes-Pf-Flowschema-Uid"%string, [uid]) :: h)
            "X-Kubernetes-PF-FlowSchema-UID" = uid
  /\ HeaderGet [("X-Kubernetes-PF-FlowSchema-UID"%string, [uid])]
               "X-Kubernetes-PF-FlowSchema-UID" = ""%string.
Proof. split; reflexivity. Qed.

(** X16. The reason recorded with a granted retry tells the cases apart:
    a retryable error is recorded as such, a 429 as server-side throttling
    together with the flow-schema UID the response carries (read, as
    [Header.Get] does, under the canonical form of the key), and any other
    retried response by its status code, which is then at least 500. *)
Theorem granted_retry_reason :
  forall r ctx restReq httpReq resp err f,
    snd (IsNextRetry retryAfterSeconds r ctx restReq httpReq resp err f) = true ->
    exists ra seconds,
      retryAfter (fst (IsNextRetry retryAfterSeconds r ctx restReq httpReq resp err f))
        = Some ra
      /\ match err with
         | Some e => Reason ra = RetryableError (Attempt ra) seconds e
         | None =>
             exists rs, resp = Some rs
               /\ ((StatusCode rs = 429
                    /\ Reason ra = ServerSideThrottling (Attempt ra) seconds
                                     (HeaderGet (Header rs) "X-Kubernetes-PF-FlowSchema-UID"))
                   \/ (500 <= StatusCode rs
                       /\ Reason ra = StatusReason (Attempt ra) seconds (StatusCode rs)))
         end.
Proof.
  intros r ctx restReq httpReq resp err f Htrue.
  destruct (IsNextRetry_true_inv _ _ _ _ _ _ _ Htrue)
    as (rs & seconds & Heff & Hwait & _ & Hstate).
  rewrite Hstate. eexists. exists seconds. split; [reflexivity |]. cbn.
  unfold effectiveResponse in Heff. destruct err as [e |].
  - injection Heff as <-. reflexivity.
  - exists rs. split; [exact Heff |].
    unfold getRetryReason, checkWait, StatusTooManyRequests in *.
    destruct (Z.eqb_spec (StatusCode rs) 429) as [H429 | H429]; [left; auto |].
    destruct (Z.leb_spec 500 (StatusCode rs)); cbn in Hwait; [right; auto | discriminate].
Qed.

(** X17. A retryable error is retried while the ceiling allows it: with a
    helper that reads the "Retry-After: 1" of the artificial response, a
    live context and a body that can be rewound, [IsNextRetry] returns true
    and records a wait of one second. *)
Theorem retryable_error_retried_after_one_second :
  forall r ctx restReq h resp (e : error) g,
    retryAfterSeconds retryAfterResponse = (1, true) ->
    wrap64 (attempts r + 1) <= maxRetries r ->
    IsErrorRetryable g h e = true ->
    Err ctx = None -> body restReq <> BodySeeker true ->
    snd (IsNextRetry retryAfterSeconds r ctx restReq (Some h) resp (Some e) (Some g)) = true
    /\ exists ra,
         retryAfter (fst (IsNextRetry retryAfterSeconds r ctx restReq (Some h) resp (Some e)
                            (Some g))) = Some ra
         /\ Wait ra = Second.
Proof.
  intros r ctx restReq h resp e g Hras Hceil Hg Hctx Hbody. unfold IsNextRetry.
  rewrite !andb_false_r.
  destruct (Z.ltb_spec (maxRetries r) (wrap64 (attempts r + 1))); [lia |].
  rewrite Hg. cbn. unfold checkWait. cbn. rewrite Hras. cbn.
  unfold prepareForNextRetry. rewrite Hctx.
  destruct (body restReq) as [| | [|]]; try contradiction; cbn;
    (split; [reflexivity |]); eexists; (split; [reflexivity |]); reflexivity.
Qed.

Lemma applyOp_attemptRecorded (o : Op) (r : withRetry) :
  attemptRecorded r -> attemptRecorded (applyOp retryAfterSeconds r o).
Proof.
  intros Hr. destruct o as [n | c | request resp err]; cbn [applyOp].
  - exact Hr.
  - unfold callIsNextRetry.
    destruct (callHttpReq c) as [h |] eqn:Hh; [| exact Hr].
    destruct (callResp c) as [rs |] eqn:Hrs.
    + destruct (wellformed_call_counts_attempt r (callCtx c) (callRestReq c) h (Some rs)
                  (callErr c) (callF c)) as (_ & _ & ra & Hra & Hatt);
        [left; discriminate |].
      intros ra' Hra'. rewrite Hra in Hra'. now injection Hra' as <-.
    + destruct (callErr c) as [e |] eqn:He; [| exact Hr].
      destruct (wellformed_call_counts_attempt r (callCtx c) (callRestReq c) h None
                  (Some e) (callF c)) as (_ & _ & ra & Hra & Hatt);
        [right; discriminate |].
      intros ra' Hra'. rewrite Hra in Hra'. now injection Hra' as <-.
  - unfold After.
    destruct (reqHasBase request); [| intros ra [=]].
    destruct (reqBackoff request); [| intros ra [=]].
    destruct err; [intros ra [=] |]. destruct resp; intros ra [=].
Qed.

(** X18. Over any sequence of [SetMaxRetries], [IsNextRetry] and [After]
    calls on a receiver that starts without retry parameters, the retry
    parameters, whenever set, carry the current attempt count. *)
Theorem retry_parameters_carry_attempt_count :
  forall (os : list Op) (r : withRetry),
    retryAfter r = None ->
    forall ra, retryAfter (applyOps retryAfterSeconds r os) = Some ra ->
               Attempt ra = attempts (applyOps retryAfterSeconds r os).
Proof.
  intros os r Hnone.
  assert (Hstart : attemptRecorded r) by (intros ra Hra; congruence).
  clear Hnone. revert r Hstart. unfold applyOps.
  induction os as [| o os IH]; intros r Hr; [exact Hr |].
  cbn [fold_left]. apply IH. now apply applyOp_attemptRecorded.
Qed.

(** X19. [After] always forgets the retry parameters and keeps ceiling and
    attempt count, whether it returns or not; a [Before] that follows it
    takes the path of a first attempt: one back-off sleep, no throttling. *)
Theorem After_resets_Before_to_first_attempt :
  forall r request resp err ctx request' b,
    Err ctx = None -> reqBackoff request' = Some b ->
    let r' := fst (fst (After r request resp err)) in
    retryAfter r' = None /\ attempts r' = attempts r /\ maxRetries r' = maxRetries r
    /\ Before r' ctx request' = ([Sleep (CalculateBackoff b (reqURL request'))], Returned None).
Proof.
  intros r request resp err ctx request' b Hctx Hb r'.
  assert (Hr' : r' = {| maxRetries := maxRetries r; attempts := attempts r;
                        retryAfter := None |}).
  { unfold r', After. destruct (reqHasBase request); [| reflexivity].
    destruct (reqBackoff request); [| reflexivity].
    destruct err; [reflexivity |]. destruct resp; reflexivity. }
  rewrite Hr'. cbn. repeat split. unfold Before. cbn. now rewrite Hctx, Hb.
Qed.

(** X20. After a granted retry, [Before] honours the server's wait: it
    sleeps the wait recorded with the retry, which is the Retry-After
    seconds of the response, then the back-off, and only then asks the rate
    limiter, passing it the reason recorded with the retry, and returns the
    limiter's answer. *)
Theorem Before_sleeps_retry_after_then_backoff :
  forall r ctx restReq httpReq resp err f ctx' request b,
    snd (IsNextRetry retryAfterSeconds r ctx restReq httpReq resp err f) = true ->
    Err ctx' = None -> reqBackoff request = Some b ->
    exists rs seconds ra,
      effectiveResponse resp err = Some rs
      /\ retryAfterSeconds rs = (seconds, true)
      /\ retryAfter (fst (IsNextRetry retryAfterSeconds r ctx restReq httpReq resp err f))
         = Some ra
      /\ Wait ra = wrap64 (seconds * Second)
      /\ Reason ra = getRetryReason (wrap64 (attempts r + 1)) seconds rs err
      /\ Before (fst (IsNextRetry retryAfterSeconds r ctx restReq httpReq resp err f))
           ctx' request
         = ([Sleep (Wait ra);
             Sleep (CalculateBackoff b (reqURL request));
             TryThrottle (Reason ra)],
            Returned (reqThrottle request (Reason ra))).
Proof.
  intros r ctx restReq httpReq resp err f ctx' request b Htrue Hctx Hb.
  destruct (IsNextRetry_true_inv _ _ _ _ _ _ _ Htrue)
    as (rs & seconds & Heff & Hwait & _ & Hstate).
  exists rs, seconds. eexists. split; [exact Heff |]. split.
  { unfold checkWait in Hwait.
    destruct ((StatusCode rs =? StatusTooManyRequests) || (500 <=? StatusCode rs));
      [exact Hwait | discriminate]. }
  rewrite Hstate. split; [reflexivity |]. split; [reflexivity |]. split; [reflexivity |].
  unfold Before. cbn -[wrap64 Z.mul getRetryReason]. rewrite Hctx, Hb. reflexivity.
Qed.

(** X21. [readAndCloseResponseBody] always leaves the body closed, never
    reads more than 2048 bytes off it, reads nothing when the declared
    length exceeds 2048, and drains the body when the declared length
    (unknown, -1, included) and what is left to read are within 2048. *)
Theorem readAndCloseResponseBody_bounds :
  forall rs : BodyResponse,
    exists rs',
      readAndCloseResponseBody (Some rs) = Some rs'
      /\ closed (RespBody rs') = true
      /\ (exists k : nat, (k <= 2048)%nat /\ unread (RespBody rs') = drop k (unread (RespBody rs)))
      /\ (2048 < ContentLength rs -> unread (RespBody rs') = unread (RespBody rs))
      /\ (ContentLength rs <= 2048 -> (length (unread (RespBody rs)) <= 2048)%nat ->
          unread (RespBody rs') = []).
Proof.
  intros rs. unfold readAndCloseResponseBody. eexists. split; [reflexivity |].
  change maxBodySlurpSize with 2048.
  destruct (Z.leb_spec (ContentLength rs) 2048) as [Hle | Hgt]; cbn [RespBody closed unread copyLimited].
  - split; [reflexivity |]. change (Z.to_nat 2048) with 2048%nat. split.
    + exists 2048%nat. split; [lia | reflexivity].
    + split; [lia |]. intros _ Hlen. now apply drop_ge.
  - split; [reflexivity |]. split.
    + exists 0%nat. split; [lia | reflexivity].
    + split; [reflexivity | lia].
Qed.
End MoreRestProperties.

Section MoreRestWitnesses.

Import Rest.
Local Open Scope Z_scope.

Lemma nonretryable_error_never_retried_witness :
  snd (IsNextRetry sampleRetryAfterSeconds (SetMaxRetries 5 freshRetry) liveCtx
         {| body := BodyNil |} (Some sampleHttpRequest) (Some throttled)
         (Some "connection reset"%string) (Some neverRetryError)) = false.
Proof.
  apply nonretryable_error_never_retried.
  intros g h [= <-] _. reflexivity.
Defined.

Lemma retryable_error_ignores_response_witness :
  IsNextRetry sampleRetryAfterSeconds (SetMaxRetries 5 freshRetry) liveCtx
    {| body := BodyNil |} (Some sampleHttpRequest) (Some notFound)
    (Some "connection reset"%string) (Some (fun _ _ => true))
  = IsNextRetry sampleRetryAfterSeconds (SetMaxRetries 5 freshRetry) liveCtx
      {| body := BodyNil |} (Some sampleHttpRequest) None
      (Some "connection reset"%string) (Some (fun _ _ => true)).
Proof.
  exact (retryable_error_ignores_response sampleRetryAfterSeconds (SetMaxRetries 5 freshRetry)
           liveCtx {| body := BodyNil |} sampleHttpRequest (Some notFound) None
           "connection reset"%string (fun _ _ => true) eq_refl).
Defined.

Lemma other_status_never_retried_witness :
  snd (IsNextRetry sampleRetryAfterSeconds (SetMaxRetries 5 freshRetry) liveCtx
         {| body := BodyNil |} (Some sampleHttpRequest) (Some notFound) None None) = false.
Proof.
  apply other_status_never_retried; cbn; lia.
Defined.

Lemma wellformed_call_counts_attempt_witness :
  snd (IsNextRetry sampleRetryAfterSeconds (SetMaxRetries 5 freshRetry) cancelledCtx
         {| body := BodyNil |} (Some sampleHttpRequest) (Some throttled) None None) = false
  /\ attempts (fst (IsNextRetry sampleRetryAfterSeconds (SetMaxRetries 5 freshRetry)
                      cancelledCtx {| body := BodyNil |} (Some sampleHttpRequest)
                      (Some throttled) None None)) = 1.
Proof.
  split; [reflexivity |].
  destruct (wellformed_call_counts_attempt sampleRetryAfterSeconds (SetMaxRetries 5 freshRetry)
              cancelledCtx {| body := BodyNil |} sampleHttpRequest (Some throttled) None None)
    as (Hatt & _); [left; discriminate |].
  rewrite Hatt. reflexivity.
Defined.

Lemma granted_retry_conditions_witness :
  Err liveCtx = None
  /\ exists ra,
       retryAfter (fst (IsNextRetry sampleRetryAfterSeconds (SetMaxRetries 2 freshRetry)
                          liveCtx {| body := BodyNil |} (Some sampleHttpRequest)
                          (Some throttled) None None)) = Some ra
       /\ Wait ra = 1000000000.
Proof.
  destruct (granted_retry_conditions sampleRetryAfterSeconds (SetMaxRetries 2 freshRetry)
              liveCtx {| body := BodyNil |} (Some sampleHttpRequest) (Some throttled)
              None None eq_refl)
    as (Hctx & _ & rs & seconds & ra & Heff & _ & Hras & Hra & Hwait).
  split; [exact Hctx |]. exists ra. split; [exact Hra |].
  cbn in Heff. injection Heff as <-. vm_compute in Hras. injection Hras as <-.
  exact Hwait.
Defined.

Lemma granted_retry_reason_witness :
  exists ra,
    retryAfter (fst (IsNextRetry sampleRetryAfterSeconds (SetMaxRetries 2 freshRetry)
                       liveCtx {| body := BodyNil |} (Some sampleHttpRequest)
                       (Some throttledByFlowSchema) None None))
      = Some ra
    /\ Reason ra = ServerSideThrottling 1 1 "fs-42"%string.
Proof.
  destruct (granted_retry_reason sampleRetryAfterSeconds (SetMaxRetries 2 freshRetry)
              liveCtx {| body := BodyNil |} (Some sampleHttpRequest)
              (Some throttledByFlowSchema) None None eq_refl)
    as (ra & seconds & Hra & _).
  exists ra. split; [exact Hra |].
  vm_compute in Hra. injection Hra as <-. reflexivity.
Defined.

Lemma retryable_error_retried_after_one_second_witness :
  snd (IsNextRetry sampleRetryAfterSeconds (SetMaxRetries 1 freshRetry) liveCtx
         {| body := BodySeeker false |} (Some sampleHttpRequest) None
         (Some "connection reset"%string) (Some (fun _ _ => true))) = true.
Proof.
  apply (retryable_error_retried_after_one_second sampleRetryAfterSeconds).
  - reflexivity.
  - vm_compute. intros [=].
  - reflexivity.
  - reflexivity.
  - discriminate.
Defined.

Lemma retry_parameters_carry_attempt_count_witness :
  exists ra,
    retryAfter (applyOps sampleRetryAfterSeconds freshRetry
                  [OpSetMaxRetries 2; OpIsNextRetry retryableCall;
                   OpIsNextRetry nilRequestCall]) = Some ra
    /\ Attempt ra = attempts (applyOps sampleRetryAfterSeconds freshRetry
                               [OpSetMaxRetries 2; OpIsNextRetry retryableCall;
                                OpIsNextRetry nilRequestCall]).
Proof.
  eexists. split; [reflexivity |].
  apply (retry_parameters_carry_attempt_count sampleRetryAfterSeconds
           [OpSetMaxRetries 2; OpIsNextRetry retryableCall; OpIsNextRetry nilRequestCall]
           freshRetry eq_refl).
  reflexivity.
Defined.

Lemma After_resets_Before_to_first_attempt_witness :
  Before (fst (fst (After (fst (callIsNextRetry sampleRetryAfterSeconds
                                  (SetMaxRetries 2 freshRetry) retryableCall))
                      sampleRequestState (Some throttled) None)))
    liveCtx sampleRequestState
  = ([Sleep 250], Returned None).
Proof.
  exact (proj2 (proj2 (proj2
           (After_resets_Before_to_first_attempt
              (fst (callIsNextRetry sampleRetryAfterSeconds (SetMaxRetries 2 freshRetry)
                      retryableCall))
              sampleRequestState (Some throttled) None liveCtx sampleRequestState
              {| CalculateBackoff := fun _ => 250 |} eq_refl eq_refl)))).
Defined.

Lemma Before_sleeps_retry_after_then_backoff_witness :
  Before (fst (IsNextRetry sampleRetryAfterSeconds (SetMaxRetries 2 freshRetry) liveCtx
                 {| body := BodyNil |} (Some sampleHttpRequest) (Some throttled) None None))
    liveCtx sampleRequestState
  = ([Sleep 1000000000; Sleep 250; TryThrottle (ServerSideThrottling 1 1 "")],
     Returned None).
Proof.
  destruct (Before_sleeps_retry_after_then_backoff sampleRetryAfterSeconds
              (SetMaxRetries 2 freshRetry) liveCtx {| body := BodyNil |}
              (Some sampleHttpRequest) (Some throttled) None None liveCtx sampleRequestState
              {| CalculateBackoff := fun _ => 250 |} eq_refl eq_refl eq_refl)
    as (rs & seconds & ra & Heff & Hras & _ & Hwait & Hreason & HB).
  rewrite HB, Hwait, Hreason.
  cbn in Heff. injection Heff as <-. vm_compute in Hras. injection Hras as <-.
  reflexivity.
Defined.

Lemma readAndCloseResponseBody_bounds_witness :
  exists rs',
    readAndCloseResponseBody
      (Some {| ContentLength := -1;
               RespBody := {| unread := [Byte.x61; Byte.x62; Byte.x63]; closed := false |} |})
    = Some rs'
    /\ closed (RespBody rs') = true
    /\ unread (RespBody rs') = [].
Proof.
  destruct (readAndCloseResponseBody_bounds
              {| ContentLength := -1;
                 RespBody := {| unread := [Byte.x61; Byte.x62; Byte.x63]; closed := false |} |})
    as (rs' & Hres & Hclosed & _ & _ & Hdrain).
  exists rs'. split; [exact Hres |]. split; [exact Hclosed |].
  apply Hdrain; cbn; lia.
Defined.

End MoreRestWitnesses.
